(** * containerutils: container identity resolution

    A shallow embedding of
    [pkg/gadgettracermanager/containerutils/containerutils.go]:
    cgroup path and cgroup id resolution, container id to pid resolution
    over the three runtimes, and the tolerant parser of the OCI state.

    Go strings and byte slices are [string] (a sequence of 8-bit bytes),
    Go [int] and [uint64] are [Z], a Go [map[string]string] is a
    [gmap string string], and a Go result [(v, err)] is a pair whose
    last component is an [option error] ([None] is [nil]).  Everything
    the package reaches outside the process (files under /proc, the
    [name_to_handle_at] system call, the docker CLI, the CRI sockets) is
    a field of the [Host] record. *)

From Stdlib Require Import ZArith String Ascii List Lia DecimalString.
From Stdlib Require DecimalPos DecimalZ.
From stdpp Require Import gmap strings.
From Equations Require Import Equations.

(** ** Errors *)

(** Operands of a [fmt.Errorf] call, one constructor per verb/operand
    kind used in the package. *)
Inductive fmt_arg (E : Type) : Type :=
| ArgString (s : string)
| ArgStrings (l : list string)
| ArgError (e : E).
Arguments ArgString {E} s.
Arguments ArgStrings {E} l.
Arguments ArgError {E} e.

Inductive NumErr : Type := ErrSyntax | ErrRange.

(** Go [error] values.  An error built by [fmt.Errorf] is kept as its
    format string and operands. *)
#[warnings="-register-all"]
Inductive error : Type :=
| io_EOF
| host_error (msg : string)
| json_SyntaxError
| json_UnmarshalTypeError (Value : string)
| strconv_NumError (Func Num : string) (Err : NumErr)
| fmt_Errorf (format : string) (a : list (fmt_arg error)).

(** A fallible call into the host: the value or the error. *)
Inductive result (A : Type) : Type :=
| Ok (a : A)
| Err (e : error).
Arguments Ok {A} a.
Arguments Err {A} e.

Definition nl : ascii := "010"%char.
Definition NL : string := String nl EmptyString.

(** The double quote, and a text between double quotes. *)
Definition dquote : ascii := "034"%char.
Definition quoted (s : string) : string :=
  String dquote (s +:+ String dquote EmptyString).

(** ** Package strings *)
Module strings.

Fixpoint HasPrefix (s prefix : string) {struct prefix} : bool :=
  match prefix, s with
  | EmptyString, _ => true
  | String _ _, EmptyString => false
  | String a prefix', String b s' =>
      if Ascii.eqb a b then HasPrefix s' prefix' else false
  end.

(** [s[n:]] *)
Fixpoint slice_from (n : nat) (s : string) : string :=
  match n, s with
  | O, _ => s
  | S _, EmptyString => EmptyString
  | S n', String _ s' => slice_from n' s'
  end.

(** [s[:n]] *)
Fixpoint slice_to (n : nat) (s : string) : string :=
  match n, s with
  | O, _ => EmptyString
  | S _, EmptyString => EmptyString
  | S n', String c s' => String c (slice_to n' s')
  end.

Definition HasSuffix (s suffix : string) : bool :=
  (String.length suffix <=? String.length s)%nat
  && String.eqb (slice_from (String.length s - String.length suffix) s) suffix.

Definition TrimPrefix (s prefix : string) : string :=
  if HasPrefix s prefix then slice_from (String.length prefix) s else s.

Definition TrimSuffix (s suffix : string) : string :=
  if HasSuffix s suffix
  then slice_to (String.length s - String.length suffix) s
  else s.

End strings.

(** ** Package bufio *)
Module bufio.

(** [Reader.ReadString(delim)] on a reader whose unread input is [r]:
    the bytes up to and including the first [delim], the input left,
    and no error; at the end of the input before any [delim], the
    bytes read so far and [io.EOF]. *)
Fixpoint ReadString (r : string) (delim : ascii)
  : string * string * option error :=
  match r with
  | EmptyString => (EmptyString, EmptyString, Some io_EOF)
  | String c r' =>
      if Ascii.eqb c delim then (String c EmptyString, r', None)
      else
        let '(line, rest, err) := ReadString r' delim in
        (String c line, rest, err)
  end.

End bufio.

(** ** Package strconv *)
Module strconv.

Definition isDigit (c : ascii) : bool :=
  (48 <=? nat_of_ascii c)%nat && (nat_of_ascii c <=? 57)%nat.

(** The value of a run of decimal digits after [acc]; [None] at a byte
    that is no digit. *)
Fixpoint digits (s : string) (acc : Z) : option Z :=
  match s with
  | EmptyString => Some acc
  | String c s' =>
      if isDigit c
      then digits s' (acc * 10 + (Z.of_nat (nat_of_ascii c) - 48))%Z
      else None
  end.

(** [ParseInt(s, 10, 64)], reported under the function name [fn]. *)
Definition parseInt64 (fn : string) (s : string) : Z * option error :=
  let syntaxError := (0%Z, Some (strconv_NumError fn s ErrSyntax)) in
  match s with
  | EmptyString => syntaxError
  | String c s' =>
      let neg := Ascii.eqb c "-" in
      let body := if Ascii.eqb c "+" || neg then s' else s in
      match body with
      | EmptyString => syntaxError
      | _ =>
          match digits body 0 with
          | None => syntaxError
          | Some un =>
              if negb neg && (2 ^ 63 <=? un)%Z
              then ((2 ^ 63 - 1)%Z, Some (strconv_NumError fn s ErrRange))
              else if neg && (2 ^ 63 <? un)%Z
              then ((- 2 ^ 63)%Z, Some (strconv_NumError fn s ErrRange))
              else ((if neg then - un else un)%Z, None)
          end
      end
  end.

Definition ParseInt (s : string) : Z * option error := parseInt64 "ParseInt" s.

(** [Atoi(s)], on a platform whose [int] has 64 bits. *)
Definition Atoi (s : string) : Z * option error := parseInt64 "Atoi" s.

End strconv.

(** ** Packages unicode/utf8 and unicode/utf16 *)
Module utf8.

Definition byte (z : Z) : string :=
  String (ascii_of_nat (Z.to_nat z)) EmptyString.

Definition code (c : ascii) : Z := Z.of_nat (nat_of_ascii c).

(** U+FFFD, encoded. *)
Definition RuneError : string := byte 239 +:+ byte 191 +:+ byte 189.

Definition isSurrogate (r : Z) : bool := (55296 <=? r)%Z && (r <? 57344)%Z.

(** [EncodeRune], as the bytes written. *)
Definition EncodeRune (r : Z) : string :=
  if (r <? 0)%Z then RuneError
  else if (r <=? 127)%Z then byte r
  else if (r <=? 2047)%Z then
    byte (Z.lor 192 (Z.shiftr r 6)) +:+ byte (Z.lor 128 (Z.land r 63))
  else if (1114111 <? r)%Z || isSurrogate r then RuneError
  else if (r <=? 65535)%Z then
    byte (Z.lor 224 (Z.shiftr r 12))
    +:+ byte (Z.lor 128 (Z.land (Z.shiftr r 6) 63))
    +:+ byte (Z.lor 128 (Z.land r 63))
  else
    byte (Z.lor 240 (Z.shiftr r 18))
    +:+ byte (Z.lor 128 (Z.land (Z.shiftr r 12) 63))
    +:+ byte (Z.lor 128 (Z.land (Z.shiftr r 6) 63))
    +:+ byte (Z.lor 128 (Z.land r 63)).

(** The [first] and [acceptRanges] tables of the decoder: for a lead
    byte of a multi-byte encoding, the number of bytes that follow and
    the range the next byte must lie in; [None] for a byte that starts
    no multi-byte encoding. *)
Definition lead (c : Z) : option (nat * Z * Z) :=
  if (194 <=? c)%Z && (c <=? 223)%Z then Some (1%nat, 128, 191)%Z
  else if (c =? 224)%Z then Some (2%nat, 160, 191)%Z
  else if (c =? 237)%Z then Some (2%nat, 128, 159)%Z
  else if (225 <=? c)%Z && (c <=? 239)%Z then Some (2%nat, 128, 191)%Z
  else if (c =? 240)%Z then Some (3%nat, 144, 191)%Z
  else if (241 <=? c)%Z && (c <=? 243)%Z then Some (3%nat, 128, 191)%Z
  else if (c =? 244)%Z then Some (3%nat, 128, 143)%Z
  else None.

End utf8.

Module utf16.

Definition isHigh (r : Z) : bool := (55296 <=? r)%Z && (r <? 56320)%Z.
Definition isLow (r : Z) : bool := (56320 <=? r)%Z && (r <? 57344)%Z.

(** [DecodeRune(r1, r2)] on a high and a low surrogate. *)
Definition DecodeRune (r1 r2 : Z) : Z :=
  (Z.lor (Z.shiftl (r1 - 55296) 10) (r2 - 56320) + 65536)%Z.

End utf16.

(** ** Package encoding/json

    The decoder of the Go standard library, for the target types this
    package decodes into.  [Unmarshal] first checks the whole input with
    the scanner (a byte-by-byte state machine with a stack of open
    arrays and objects), then stores the value into the target.  The
    scanner below is that machine; it also builds the value it has
    checked, so that storing is a walk over the value.  (The later
    limit on the nesting depth is not part of it.) *)
Module json.

#[warnings="-register-all"]
Inductive value : Type :=
| Null
| Bool (b : bool)
| Number (literal : string)
| Str (s : string)
| Array (elems : list value)
| Object (members : list (string * value)).

(** *** Unquoting a string literal *)

Inductive ustate : Type :=
| UPlain
| UEsc
| UEscU (need : nat) (acc : Z)
| UUtf8 (need : nat) (buf : string) (lo hi : Z).

Definition repeat_RuneError (n : nat) : string :=
  Nat.iter n (fun s => utf8.RuneError +:+ s) EmptyString.

(** A high surrogate escape that waits for its low half is [pend]. *)
Definition flush (pend : option Z) (out : string) : string :=
  match pend with
  | Some _ => out +:+ utf8.RuneError
  | None => out
  end.

Definition hexval (c : ascii) : Z :=
  let n := utf8.code c in
  if (48 <=? n)%Z && (n <=? 57)%Z then (n - 48)%Z
  else if (97 <=? n)%Z && (n <=? 102)%Z then (n - 97 + 10)%Z
  else (n - 65 + 10)%Z.

Definition uplain (c : ascii) (pend : option Z) (out : string)
  : ustate * option Z * string :=
  if Ascii.eqb c "\" then (UEsc, pend, out)
  else
    let out := flush pend out in
    if (utf8.code c <? 128)%Z then (UPlain, None, out +:+ String c EmptyString)
    else
      match utf8.lead (utf8.code c) with
      | Some (need, lo, hi) => (UUtf8 need (String c EmptyString) lo hi, None, out)
      | None => (UPlain, None, out +:+ utf8.RuneError)
      end.

Definition urune (rr : Z) (out : string) : ustate * option Z * string :=
  if utf16.isHigh rr then (UPlain, Some rr, out)
  else if utf16.isLow rr then (UPlain, None, out +:+ utf8.RuneError)
  else (UPlain, None, out +:+ utf8.EncodeRune rr).

Definition ustep (st : ustate) (pend : option Z) (out : string) (c : ascii)
  : ustate * option Z * string :=
  match st with
  | UPlain => uplain c pend out
  | UEsc =>
      if Ascii.eqb c "u" then (UEscU 4 0%Z, pend, out)
      else
        let out := flush pend out in
        let b :=
          if Ascii.eqb c "b" then utf8.byte 8
          else if Ascii.eqb c "f" then utf8.byte 12
          else if Ascii.eqb c "n" then utf8.byte 10
          else if Ascii.eqb c "r" then utf8.byte 13
          else if Ascii.eqb c "t" then utf8.byte 9
          else String c EmptyString in
        (UPlain, None, out +:+ b)
  | UEscU need acc =>
      let acc := (acc * 16 + hexval c)%Z in
      match need with
      | S (S n) => (UEscU (S n) acc, pend, out)
      | _ =>
          match pend with
          | Some high =>
              if utf16.isLow acc
              then (UPlain, None, out +:+ utf8.EncodeRune (utf16.DecodeRune high acc))
              else urune acc (out +:+ utf8.RuneError)
          | None => urune acc out
          end
      end
  | UUtf8 need buf lo hi =>
      if (lo <=? utf8.code c)%Z && (utf8.code c <=? hi)%Z then
        match need with
        | S (S n) => (UUtf8 (S n) (buf +:+ String c EmptyString) 128 191, None, out)
        | _ => (UPlain, None, out +:+ buf +:+ String c EmptyString)
        end
      else uplain c None (out +:+ repeat_RuneError (String.length buf))
  end.

Fixpoint unquote_from (st : ustate) (pend : option Z) (out : string)
  (raw : string) : string :=
  match raw with
  | EmptyString =>
      match st with
      | UUtf8 _ buf _ _ => out +:+ repeat_RuneError (String.length buf)
      | _ => flush pend out
      end
  | String c raw' =>
      let '(st, pend, out) := ustep st pend out c in
      unquote_from st pend out raw'
  end.

(** [unquote] on the bytes between the quotes of a literal the
    scanner has accepted: escapes replaced, a [\u] surrogate pair
    joined, and U+FFFD for a lone surrogate and for each byte that is
    not part of a valid UTF-8 encoding. *)
Definition unquote (raw : string) : string :=
  unquote_from UPlain None EmptyString raw.

(** *** The scanner *)

Inductive step : Type :=
| stateBeginValue
| stateBeginValueOrEmpty
| stateBeginStringOrEmpty
| stateBeginString
| stateInString (raw : string)
| stateInStringEsc (raw : string)
| stateInStringEscU (raw : string) (need : nat)
| stateNeg (lit : string)
| state1 (lit : string)
| state0 (lit : string)
| stateDot (lit : string)
| stateDot0 (lit : string)
| stateE (lit : string)
| stateESign (lit : string)
| stateE0 (lit : string)
| stateLiteral (rest : string) (v : value)
| stateEndValue
| stateEndTop
| stateError.

(** An entry of the parse stack, with what has been read of the array
    or object it stands for.  [parseObjectKey m None]: a key is being
    read; [parseObjectKey m (Some k)]: the key is read, a colon is
    due; [parseObjectValue m (Some k)]: the value of [k] is being
    read; [parseObjectValue m None]: the pair is stored in [m]. *)
Inductive frame : Type :=
| parseObjectKey (members : list (string * value)) (key : option string)
| parseObjectValue (members : list (string * value)) (key : option string)
| parseArrayValue (elems : list value).

Record scanner : Type := {
  step_ : step;
  parseState : list frame;
  top : option value
}.

Definition error_ (s : scanner) : scanner :=
  {| step_ := stateError; parseState := parseState s; top := top s |}.

Definition goto (s : scanner) (st : step) : scanner :=
  {| step_ := st; parseState := parseState s; top := top s |}.

Definition push (s : scanner) (f : frame) (st : step) : scanner :=
  {| step_ := st; parseState := f :: parseState s; top := top s |}.

Definition isSpace (c : ascii) : bool :=
  Ascii.eqb c " " || Ascii.eqb c "009" || Ascii.eqb c "013" || Ascii.eqb c "010".

Definition isHex (c : ascii) : bool :=
  let n := utf8.code c in
  ((48 <=? n) && (n <=? 57) || (97 <=? n) && (n <=? 102)
   || (65 <=? n) && (n <=? 70))%Z.

Definition snoc (s : string) (c : ascii) : string := s +:+ String c EmptyString.

(** A value is complete: it becomes the result, or the next element,
    key or member value of the innermost open array or object. *)
Definition endValue (ps : list frame) (tp : option value) (v : value)
  : scanner :=
  match ps with
  | [] => {| step_ := stateEndTop; parseState := []; top := Some v |}
  | parseArrayValue elems :: ps' =>
      {| step_ := stateEndValue;
         parseState := parseArrayValue (elems ++ [v]) :: ps'; top := tp |}
  | parseObjectKey members None :: ps' =>
      match v with
      | Str k =>
          {| step_ := stateEndValue;
             parseState := parseObjectKey members (Some k) :: ps'; top := tp |}
      | _ => {| step_ := stateError; parseState := ps; top := tp |}
      end
  | parseObjectValue members (Some k) :: ps' =>
      {| step_ := stateEndValue;
         parseState := parseObjectValue (members ++ [(k, v)]) None :: ps';
         top := tp |}
  | _ => {| step_ := stateError; parseState := ps; top := tp |}
  end.

Definition stepEndTop (s : scanner) (c : ascii) : scanner :=
  if isSpace c then goto s stateEndTop else error_ s.

Definition stepEndValue (s : scanner) (c : ascii) : scanner :=
  match parseState s with
  | [] => stepEndTop s c
  | f :: ps' =>
      if isSpace c then goto s stateEndValue
      else
        match f with
        | parseObjectKey members (Some k) =>
            if Ascii.eqb c ":"
            then {| step_ := stateBeginValue;
                    parseState := parseObjectValue members (Some k) :: ps';
                    top := top s |}
            else error_ s
        | parseObjectValue members None =>
            if Ascii.eqb c ","
            then {| step_ := stateBeginString;
                    parseState := parseObjectKey members None :: ps';
                    top := top s |}
            else if Ascii.eqb c "}"
            then endValue ps' (top s) (Object members)
            else error_ s
        | parseArrayValue elems =>
            if Ascii.eqb c "," then goto s stateBeginValue
            else if Ascii.eqb c "]"
            then endValue ps' (top s) (Array elems)
            else error_ s
        | _ => error_ s
        end
  end.

(** The byte after a number ends it and is then read as the byte
    after a value. *)
Definition endNumber (s : scanner) (lit : string) (c : ascii) : scanner :=
  let s' := endValue (parseState s) (top s) (Number lit) in
  match step_ s' with
  | stateEndValue => stepEndValue s' c
  | stateEndTop => stepEndTop s' c
  | _ => s'
  end.

Definition isDigit19 (c : ascii) : bool :=
  (49 <=? utf8.code c)%Z && (utf8.code c <=? 57)%Z.

Definition stepBeginString (s : scanner) (c : ascii) : scanner :=
  if isSpace c then s
  else if Ascii.eqb c dquote then goto s (stateInString EmptyString)
  else error_ s.

Definition stepBeginValue (s : scanner) (c : ascii) : scanner :=
  if isSpace c then s
  else if Ascii.eqb c "{"
  then push s (parseObjectKey [] None) stateBeginStringOrEmpty
  else if Ascii.eqb c "["
  then push s (parseArrayValue []) stateBeginValueOrEmpty
  else if Ascii.eqb c dquote then goto s (stateInString EmptyString)
  else if Ascii.eqb c "-" then goto s (stateNeg "-")
  else if Ascii.eqb c "0" then goto s (state0 "0")
  else if Ascii.eqb c "t" then goto s (stateLiteral "rue" (Bool true))
  else if Ascii.eqb c "f" then goto s (stateLiteral "alse" (Bool false))
  else if Ascii.eqb c "n" then goto s (stateLiteral "ull" Null)
  else if isDigit19 c then goto s (state1 (String c EmptyString))
  else error_ s.

Definition step0 (s : scanner) (lit : string) (c : ascii) : scanner :=
  if Ascii.eqb c "." then goto s (stateDot (snoc lit c))
  else if Ascii.eqb c "e" || Ascii.eqb c "E" then goto s (stateE (snoc lit c))
  else endNumber s lit c.

Definition stepESign (s : scanner) (lit : string) (c : ascii) : scanner :=
  if strconv.isDigit c then goto s (stateE0 (snoc lit c)) else error_ s.

Definition scan_step (s : scanner) (c : ascii) : scanner :=
  match step_ s with
  | stateBeginValue => stepBeginValue s c
  | stateBeginValueOrEmpty =>
      if isSpace c then s
      else if Ascii.eqb c "]" then stepEndValue s c
      else stepBeginValue s c
  | stateBeginStringOrEmpty =>
      if isSpace c then s
      else if Ascii.eqb c "}" then
        match parseState s with
        | parseObjectKey members None :: ps' =>
            endValue ps' (top s) (Object members)
        | _ => error_ s
        end
      else stepBeginString s c
  | stateBeginString => stepBeginString s c
  | stateInString raw =>
      if Ascii.eqb c dquote
      then endValue (parseState s) (top s) (Str (unquote raw))
      else if Ascii.eqb c "\" then goto s (stateInStringEsc (snoc raw c))
      else if (utf8.code c <? 32)%Z then error_ s
      else goto s (stateInString (snoc raw c))
  | stateInStringEsc raw =>
      if Ascii.eqb c "b" || Ascii.eqb c "f" || Ascii.eqb c "n"
         || Ascii.eqb c "r" || Ascii.eqb c "t" || Ascii.eqb c "\"
         || Ascii.eqb c "/" || Ascii.eqb c dquote
      then goto s (stateInString (snoc raw c))
      else if Ascii.eqb c "u" then goto s (stateInStringEscU (snoc raw c) 4)
      else error_ s
  | stateInStringEscU raw need =>
      if isHex c then
        match need with
        | S (S n) => goto s (stateInStringEscU (snoc raw c) (S n))
        | _ => goto s (stateInString (snoc raw c))
        end
      else error_ s
  | stateNeg lit =>
      if Ascii.eqb c "0" then goto s (state0 (snoc lit c))
      else if isDigit19 c then goto s (state1 (snoc lit c))
      else error_ s
  | state1 lit =>
      if strconv.isDigit c then goto s (state1 (snoc lit c))
      else step0 s lit c
  | state0 lit => step0 s lit c
  | stateDot lit =>
      if strconv.isDigit c then goto s (stateDot0 (snoc lit c)) else error_ s
  | stateDot0 lit =>
      if strconv.isDigit c then goto s (stateDot0 (snoc lit c))
      else if Ascii.eqb c "e" || Ascii.eqb c "E" then goto s (stateE (snoc lit c))
      else endNumber s lit c
  | stateE lit =>
      if Ascii.eqb c "+" || Ascii.eqb c "-" then goto s (stateESign (snoc lit c))
      else stepESign s lit c
  | stateESign lit => stepESign s lit c
  | stateE0 lit =>
      if strconv.isDigit c then goto s (stateE0 (snoc lit c))
      else endNumber s lit c
  | stateLiteral rest v =>
      match rest with
      | String e rest' =>
          if Ascii.eqb c e then
            match rest' with
            | EmptyString => endValue (parseState s) (top s) v
            | _ => goto s (stateLiteral rest' v)
            end
          else error_ s
      | EmptyString => error_ s
      end
  | stateEndValue => stepEndValue s c
  | stateEndTop => stepEndTop s c
  | stateError => s
  end.

Fixpoint scan_bytes (s : scanner) (data : string) : scanner :=
  match data with
  | EmptyString => s
  | String c data' => scan_bytes (scan_step s c) data'
  end.

(** [checkValid] with the value read: the scanner is run over the
    data and then told the input has ended (a space is fed to it, as
    the scanner's [eof] does). *)
Definition checkValid (data : string) : option value :=
  let s := scan_bytes {| step_ := stateBeginValue; parseState := []; top := None |}
                      data in
  let s := scan_step s " " in
  match step_ s, top s with
  | stateEndTop, Some v => Some v
  | _, _ => None
  end.

(** *** Storing a value into a target *)

Definition saveError (saved : option error) (e : error) : option error :=
  match saved with
  | None => Some e
  | Some _ => saved
  end.

(** The [Value] field of the [UnmarshalTypeError] for a value that
    does not fit its target. *)
Definition typeError (v : value) : error :=
  json_UnmarshalTypeError
    match v with
    | Null => "null"
    | Bool _ => "bool"
    | Number _ => "number"
    | Str _ => "string"
    | Array _ => "array"
    | Object _ => "object"
    end.

(** Storing into a target of type [T]: the value read, the target as
    it stands and the error saved so far give the target and the
    saved error afterwards.  A value of the wrong kind leaves the
    target as it is and saves a type error, if it is the first;
    decoding goes on. *)
Definition storer (T : Type) : Type :=
  value -> T -> option error -> T * option error.

Definition store_string : storer string :=
  fun v cur saved =>
    match v with
    | Null => (cur, saved)
    | Str s => (s, saved)
    | _ => (cur, saveError saved (typeError v))
    end.

Definition store_int : storer Z :=
  fun v cur saved =>
    match v with
    | Null => (cur, saved)
    | Number lit =>
        match strconv.ParseInt lit with
        | (n, None) => (n, saved)
        | (_, Some _) =>
            (cur, saveError saved (json_UnmarshalTypeError ("number " +:+ lit)))
        end
    | _ => (cur, saveError saved (typeError v))
    end.

(** Target [map[string]string]; [None] is the nil map. *)
Definition store_map : storer (option (gmap string string)) :=
  fun v cur saved =>
    match v with
    | Null => (None, saved)
    | Object members =>
        let '(m, saved) :=
          fold_left
            (fun (acc : gmap string string * option error) kv =>
               let '(elem, saved) := store_string (snd kv) EmptyString (snd acc) in
               (<[fst kv := elem]> (fst acc), saved))
            members (default ∅ cur, saved) in
        (Some m, saved)
    | _ => (cur, saveError saved (typeError v))
    end.

(** Target [[]T]: element [i] is stored into the element the slice
    has at [i], or into a zero value. *)
Fixpoint store_elems {T : Type} (zero : T) (elem : storer T)
  (vs : list value) (cur : list T) (saved : option error)
  : list T * option error :=
  match vs with
  | [] => ([], saved)
  | v :: vs' =>
      let '(x, saved) := elem v (hd zero cur) saved in
      let '(xs, saved) := store_elems zero elem vs' (tl cur) saved in
      (x :: xs, saved)
  end.

Definition store_slice {T : Type} (zero : T) (elem : storer T)
  : storer (list T) :=
  fun v cur saved =>
    match v with
    | Null => ([], saved)
    | Array vs => store_elems zero elem vs cur saved
    | _ => (cur, saveError saved (typeError v))
    end.

(** *** Struct targets: matching a key with a field *)

Definition caseMask (c : ascii) : Z := Z.land (utf8.code c) 223.

Fixpoint simpleLetterEqualFold (s t : string) : bool :=
  match s, t with
  | EmptyString, EmptyString => true
  | String sb s', String tb t' =>
      (caseMask sb =? caseMask tb)%Z && simpleLetterEqualFold s' t'
  | _, _ => false
  end.

Definition smallLongEss : string := utf8.EncodeRune 383.
Definition kelvin : string := utf8.EncodeRune 8490.

Fixpoint equalFoldRight (s t : string) : bool :=
  match s with
  | EmptyString => match t with EmptyString => true | _ => false end
  | String sb s' =>
      match t with
      | EmptyString => false
      | String tb t' =>
          if (utf8.code tb <? 128)%Z then
            if Ascii.eqb sb tb then equalFoldRight s' t'
            else
              let sbUpper := caseMask sb in
              if (65 <=? sbUpper)%Z && (sbUpper <=? 90)%Z
              then (sbUpper =? caseMask tb)%Z && equalFoldRight s' t'
              else false
          else if Ascii.eqb sb "s" || Ascii.eqb sb "S" then
            strings.HasPrefix t smallLongEss
            && equalFoldRight s' (strings.slice_from 2 t)
          else if Ascii.eqb sb "k" || Ascii.eqb sb "K" then
            strings.HasPrefix t kelvin
            && equalFoldRight s' (strings.slice_from 3 t)
          else false
      end
  end.

(** A field of a struct target: its JSON name, the folding function
    its name selects, and how a value is stored into it. *)
Record field (T : Type) : Type := {
  name : string;
  equalFold : string -> string -> bool;
  store_field : storer T
}.
Arguments name {T} f.
Arguments equalFold {T} f.
Arguments store_field {T} f.

(** The field for a key: the one of that very name, or else the first
    whose name equals the key under its folding. *)
Definition find_field {T : Type} (fields : list (field T)) (key : string)
  : option (field T) :=
  match find (fun f => String.eqb (name f) key) fields with
  | Some f => Some f
  | None => find (fun f => equalFold f (name f) key) fields
  end.

Definition store_struct {T : Type} (fields : list (field T)) : storer T :=
  fun v cur saved =>
    match v with
    | Null => (cur, saved)
    | Object members =>
        fold_left
          (fun (acc : T * option error) kv =>
             match find_field fields (fst kv) with
             | Some f => store_field f (snd kv) (fst acc) (snd acc)
             | None => acc
             end)
          members (cur, saved)
    | _ => (cur, saveError saved (typeError v))
    end.

(** [json.Unmarshal(data, &v)]: a syntax error leaves the target
    untouched; otherwise the value is stored and the first saved
    type error, if any, is the error returned. *)
Definition Unmarshal {T : Type} (st : storer T) (data : string) (v : T)
  : T * option error :=
  match checkValid data with
  | None => (v, Some json_SyntaxError)
  | Some j => st j v None
  end.
End json.

(** ** Package specs-go (ocispec) *)
Module ocispec.

(** Modelled from the spec: the type [State] is declared in the
    runtime-spec module this package imports and not in the package
    itself.  [ID] and [Pid] are the fields [id] and [pid] of the
    spec's OCI state; the other fields are those of the declaration
    in specs-go ([ociVersion], [status], [bundle], [annotations]). *)
Record State : Type := {
  Version : string;
  ID : string;
  Status : string;
  Pid : Z;
  Bundle : string;
  Annotations : option (gmap string string)
}.

Definition zero : State :=
  {| Version := EmptyString; ID := EmptyString; Status := EmptyString;
     Pid := 0; Bundle := EmptyString; Annotations := None |}.

Import json.

Definition fields : list (field State) :=
  [ {| name := "ociVersion"; equalFold := equalFoldRight;
       store_field := fun v st saved =>
         let '(x, saved) := store_string v (Version st) saved in
         ({| Version := x; ID := ID st; Status := Status st; Pid := Pid st;
             Bundle := Bundle st; Annotations := Annotations st |}, saved) |};
    {| name := "id"; equalFold := simpleLetterEqualFold;
       store_field := fun v st saved =>
         let '(x, saved) := store_string v (ID st) saved in
         ({| Version := Version st; ID := x; Status := Status st; Pid := Pid st;
             Bundle := Bundle st; Annotations := Annotations st |}, saved) |};
    {| name := "status"; equalFold := equalFoldRight;
       store_field := fun v st saved =>
         let '(x, saved) := store_string v (Status st) saved in
         ({| Version := Version st; ID := ID st; Status := x; Pid := Pid st;
             Bundle := Bundle st; Annotations := Annotations st |}, saved) |};
    {| name := "pid"; equalFold := simpleLetterEqualFold;
       store_field := fun v st saved =>
         let '(x, saved) := store_int v (Pid st) saved in
         ({| Version := Version st; ID := ID st; Status := Status st; Pid := x;
             Bundle := Bundle st; Annotations := Annotations st |}, saved) |};
    {| name := "bundle"; equalFold := simpleLetterEqualFold;
       store_field := fun v st saved =>
         let '(x, saved) := store_string v (Bundle st) saved in
         ({| Version := Version st; ID := ID st; Status := Status st; Pid := Pid st;
             Bundle := x; Annotations := Annotations st |}, saved) |};
    {| name := "annotations"; equalFold := equalFoldRight;
       store_field := fun v st saved =>
         let '(x, saved) := store_map v (Annotations st) saved in
         ({| Version := Version st; ID := ID st; Status := Status st; Pid := Pid st;
             Bundle := Bundle st; Annotations := x |}, saved) |} ].

Definition store_State : storer State := store_struct fields.

End ocispec.

(** ** The host *)

(** [struct cgid_file_handle] of the cgo preamble. *)
Record cgid_file_handle : Type := {
  handle_bytes : Z;
  handle_type : Z;
  cgid : Z
}.

(** [pb.ContainerStatusRequest] and [pb.ContainerStatusResponse], with
    the fields the package uses. *)
Record ContainerStatusRequest : Type := {
  ContainerId : string;
  Verbose : bool
}.

Record ContainerStatusResponse : Type := {
  Info : gmap string string
}.

Record Host : Type := {
  (** [os.Open(path)]: the error, or the opened file as the bytes its
      reads deliver before the first read that fails (at the end of the
      file or on an error: the loop of [GetCgroupPaths] stops on any). *)
  os_Open : string -> result string;
  (** [malloc(sizeof(struct cgid_file_handle))]: the fresh block with
      whatever it holds, or [None] for a null pointer. *)
  malloc_handle : option cgid_file_handle;
  (** [name_to_handle_at(AT_FDCWD, path, h, &mount_id, 0)]: the return
      code and the handle as the kernel left it. *)
  name_to_handle_at : string -> cgid_file_handle -> Z * cgid_file_handle;
  (** [exec.Command(name, args...).Output()] *)
  exec_Output : string -> list string -> result string;
  (** [grpc.Dial] on a Unix socket path, with the package's options. *)
  grpc_Dial : string -> option error;
  (** [RuntimeServiceClient.ContainerStatus] over the connection to the
      socket. *)
  cri_ContainerStatus :
    string -> ContainerStatusRequest -> result ContainerStatusResponse
}.

(** Conversion to [uint64]. *)
Definition uint64 (z : Z) : Z := (z mod 2 ^ 64)%Z.

(** [fmt.Sprintf("%d", n)] *)
Definition Sprintf_d (n : Z) : string := NilZero.string_of_int (Z.to_int n).

Module filepath.

(** [filepath.Join] on elements that are already clean and not empty
    (as at its call sites here): the elements separated by a slash. *)
Fixpoint Join (elem : list string) : string :=
  match elem with
  | [] => EmptyString
  | [e] => e
  | e :: rest => e +:+ "/" +:+ Join rest
  end.

End filepath.

(** ** Cgroup id *)

(** The C function [get_cgroupid]. *)
Definition get_cgroupid (h : Host) (path : string) : Z :=
  match malloc_handle h with
  | None => 0%Z
  | Some blk =>
      let blk := {| handle_bytes := 8;
                    handle_type := handle_type blk;
                    cgid := cgid blk |} in
      let '(err, blk) := name_to_handle_at h path blk in
      if negb (err =? 0)%Z then 0%Z
      else if negb (handle_bytes blk =? 8)%Z then 0%Z
      else cgid blk
  end.

Definition GetCgroupID (h : Host) (pathWithMountpoint : string)
  : Z * option error :=
  let ret := uint64 (get_cgroupid h pathWithMountpoint) in
  if (ret =? 0)%Z
  then (0%Z, Some (fmt_Errorf "GetCgroupID on %q failed"
                              [ArgString pathWithMountpoint]))
  else (ret, None).

(** ** Cgroup paths *)

Definition inspect {A : Type} (a : A) : {b : A | a = b} :=
  exist _ a eq_refl.

(** Closes the termination obligations of the loop below: a read
    that returns no error has consumed at least its delimiter. *)
Ltac ReadString_consumes :=
  match goal with
  | H : bufio.ReadString ?r ?d = (?l, ?r', None) |- _ =>
      revert H; generalize l; generalize r'; clear;
      induction r as [|c r IH]; intros r' l; simpl;
      [ discriminate
      | destruct (Ascii.eqb c d);
        [ intros [= _ <-]; lia
        | destruct (bufio.ReadString r d) as [[l0 r0] e0];
          intros [= _ <- ->]; specialize (IH _ _ eq_refl); lia ] ]
  end.

(** The [for] loop of [GetCgroupPaths] over the lines of the opened
    file, with the two path variables as they stand. *)
Equations? scan_cgroup (reader : string) (cgroupPathV1 cgroupPathV2 : string)
  : string * string by wf (String.length reader) lt :=
  scan_cgroup reader cgroupPathV1 cgroupPathV2
    with inspect (bufio.ReadString reader nl) := {
    | exist _ (line, reader', Some _) _ => (cgroupPathV1, cgroupPathV2)
    | exist _ (line, reader', None) Hread =>
        if strings.HasPrefix line "1:name=systemd:" then
          scan_cgroup reader'
            (strings.TrimSuffix (strings.TrimPrefix line "1:name=systemd:") NL)
            cgroupPathV2
        else if strings.HasPrefix line "0::" then
          scan_cgroup reader' cgroupPathV1
            (strings.TrimSuffix (strings.TrimPrefix line "0::") NL)
        else scan_cgroup reader' cgroupPathV1 cgroupPathV2 }.
Proof. all: ReadString_consumes. Qed.

Definition GetCgroupPaths (h : Host) (pid : Z)
  : string * string * option error :=
  match os_Open h (filepath.Join ["/proc"; Sprintf_d pid; "cgroup"]) with
  | Ok cgroupFile =>
      let '(cgroupPathV1, cgroupPathV2) :=
        scan_cgroup cgroupFile EmptyString EmptyString in
      let cgroupPathV1 :=
        if String.eqb cgroupPathV1 "/" then EmptyString else cgroupPathV1 in
      let cgroupPathV2 :=
        if String.eqb cgroupPathV2 "/" then EmptyString else cgroupPathV2 in
      if String.eqb cgroupPathV2 EmptyString
         && String.eqb cgroupPathV1 EmptyString
      then (EmptyString, EmptyString,
            Some (fmt_Errorf "cannot find cgroup path in /proc/PID/cgroup" []))
      else (cgroupPathV1, cgroupPathV2, None)
  | Err err =>
      (EmptyString, EmptyString,
       Some (fmt_Errorf "cannot parse cgroup: %v" [ArgError err]))
  end.


(** ** Package regexp *)
Module regexp.

(** The one pattern of the package: under the flags [ms], a line
    start, a group of any bytes (greedy), the literal text of a comma,
    the quoted word annotations and a colon, then any bytes up to a
    line end.  Under [s] a dot matches every byte, the newline too,
    and under [m] the anchors also match at line breaks; the text
    start and the text end always match them.  So a match exists
    exactly when the text contains the literal; the leftmost match
    starts at the text start, its tail runs to the text end, and the
    greedy group takes the longest prefix that the literal still
    follows. *)
Definition literal : string := "," +:+ quoted "annotations" +:+ ":".

(** The group of the match: the text before the last occurrence of
    the literal. *)
Fixpoint group1 (s : string) : option string :=
  match s with
  | EmptyString => None
  | String c s' =>
      match group1 s' with
      | Some g => Some (String c g)
      | None => if strings.HasPrefix s literal then Some EmptyString else None
      end
  end.

(** [fix.FindStringSubmatch(s)]: the whole match and the group, or
    the nil slice. *)
Definition FindStringSubmatch (s : string) : list string :=
  match group1 s with
  | Some g => [s; g]
  | None => []
  end.

End regexp.

(** ** Calls into the host, recorded *)

Inductive event : Type :=
| ExecOutput (name : string) (args : list string)
| GrpcDial (path : string)
| CriContainerStatus (path : string) (request : ContainerStatusRequest).

(** A computation that may call the docker CLI or a CRI socket: it
    appends the calls it makes to the trace. *)
Definition M (A : Type) : Type := list event -> A * list event.

#[export] Instance M_ret : MRet M := fun A a tr => (a, tr).
#[export] Instance M_bind : MBind M :=
  fun A B k m tr => let '(a, tr') := m tr in k a tr'.

Definition call {A : Type} (e : event) (r : A) : M A :=
  fun tr => (r, tr ++ [e]).

(** ** Container id to pid *)

Definition CONTAINERD_DEFAULT_SOCKET_PATH : string := "/run/containerd/containerd.sock".
Definition CRIO_DEFAULT_SOCKET_PATH : string := "/run/crio/crio.sock".
Definition DOCKER_SHIM_DEFAULT_SOCKER_PATH : string := "/var/run/dockershim.sock".

Definition getConnection (h : Host) (path : string) : M (option error) :=
  call (GrpcDial path) (grpc_Dial h path).

Definition getContainerStatus (h : Host) (sockPath containerdID : string)
  : M (result ContainerStatusResponse) :=
  err ← getConnection h sockPath;
  match err with
  | Some err => mret (Err err)
  | None =>
      let request := {| ContainerId := containerdID; Verbose := true |} in
      call (CriContainerStatus sockPath request)
           (cri_ContainerStatus h sockPath request)
  end.

(** The anonymous [struct { Pid int }], of [DockerInspect.State] and of
    [containerdInspect]. *)
Record PidStruct : Type := { Pid : Z }.

Record DockerInspect : Type := { State : PidStruct }.

Definition store_PidStruct : json.storer PidStruct :=
  json.store_struct
    [ {| json.name := "Pid"; json.equalFold := json.simpleLetterEqualFold;
         json.store_field := fun v st saved =>
           let '(x, saved) := json.store_int v (Pid st) saved in
           ({| Pid := x |}, saved) |} ].

Definition store_DockerInspect : json.storer DockerInspect :=
  json.store_struct
    [ {| json.name := "State"; json.equalFold := json.equalFoldRight;
         json.store_field := fun v st saved =>
           let '(x, saved) := store_PidStruct v (State st) saved in
           ({| State := x |}, saved) |} ].

Definition PidFromContainerId (h : Host) (containerID : string)
  : M (Z * option error) :=
  if strings.HasPrefix containerID "docker://" then
    let arg := strings.TrimPrefix containerID "docker://" in
    out ← call (ExecOutput "chroot" ["/host"; "docker"; "inspect"; arg])
               (exec_Output h "chroot" ["/host"; "docker"; "inspect"; arg]);
    match out with
    | Err err => mret ((-1)%Z, Some err)
    | Ok out =>
        let '(dockerInspect, err) :=
          json.Unmarshal
            (json.store_slice {| State := {| Pid := 0 |} |} store_DockerInspect)
            out [] in
        match err with
        | Some err => mret ((-1)%Z, Some err)
        | None =>
            if negb (length dockerInspect =? 1)%nat
            then mret ((-1)%Z, Some (fmt_Errorf "invalid output" []))
            else mret (Pid (State (nth 0 dockerInspect
                                       {| State := {| Pid := 0 |} |})), None)
        end
    end
  else if strings.HasPrefix containerID "cri-o://" then
    let IDWithoutPrefix := strings.TrimPrefix containerID "cri-o://" in
    r ← getContainerStatus h CRIO_DEFAULT_SOCKET_PATH IDWithoutPrefix;
    match r with
    | Err err => mret ((-1)%Z, Some err)
    | Ok r =>
        match Info r !! "pid" with
        | None =>
            mret ((-1)%Z,
                  Some (fmt_Errorf
                          "container status reply from runtime doesn't contain 'pid'" []))
        | Some pidStr =>
            let '(pid, err) := strconv.Atoi pidStr in
            match err with
            | Some err => mret ((-1)%Z, Some err)
            | None => mret (pid, None)
            end
        end
    end
  else if strings.HasPrefix containerID "containerd://" then
    let IDWithoutPrefix := strings.TrimPrefix containerID "containerd://" in
    r ← getContainerStatus h CONTAINERD_DEFAULT_SOCKET_PATH IDWithoutPrefix;
    match r with
    | Err err => mret ((-1)%Z, Some err)
    | Ok r =>
        match Info r !! "info" with
        | None =>
            mret ((-1)%Z,
                  Some (fmt_Errorf
                          "container status reply from runtime doesn't contain 'info'" []))
        | Some info =>
            let '(containerdInspect, err) :=
              json.Unmarshal store_PidStruct info {| Pid := 0 |} in
            match err with
            | Some err => mret ((-1)%Z, Some err)
            | None =>
                if (Pid containerdInspect =? 0)%Z
                then mret ((-1)%Z, Some (fmt_Errorf "invalid pid" []))
                else mret (Pid containerdInspect, None)
            end
        end
    end
  else
    mret ((-1)%Z,
          Some (fmt_Errorf "unknown container runtime: %s" [ArgString containerID])).

(** ** The OCI state *)

Definition ParseOCIState (stateBuf : string) : string * Z * option error :=
  let ociState := ocispec.zero in
  let '(ociState, err) := json.Unmarshal ocispec.store_State stateBuf ociState in
  match err with
  | Some err =>
      let matches := regexp.FindStringSubmatch stateBuf in
      if negb (length matches =? 2)%nat then
        (EmptyString, 0%Z,
         Some (fmt_Errorf
                 ("cannot parse OCI state: matches=%+v" +:+ NL +:+ " %v" +:+ NL
                  +:+ "%s" +:+ NL)
                 [ArgStrings matches; ArgError err; ArgString stateBuf]))
      else
        let '(ociState, err) :=
          json.Unmarshal ocispec.store_State
                         (nth 1 matches EmptyString +:+ "}") ociState in
        match err with
        | Some err =>
            (EmptyString, 0%Z,
             Some (fmt_Errorf
                     ("cannot parse OCI state: %v" +:+ NL +:+ "%s" +:+ NL)
                     [ArgError err; ArgString stateBuf]))
        | None => (ocispec.ID ociState, ocispec.Pid ociState, None)
        end
  | None => (ocispec.ID ociState, ocispec.Pid ociState, None)
  end.


(** ** Lines of a file, for the statements *)

(** Whether byte [c] occurs in [s]. *)
Fixpoint contains (c : ascii) (s : string) : bool :=
  match s with
  | EmptyString => false
  | String a s' => Ascii.eqb a c || contains c s'
  end.

(** Whether a line starts right after the text [pre]: [pre] is empty or
    ends with a newline. *)
Fixpoint line_start (pre : string) : bool :=
  match pre with
  | EmptyString => true
  | String a EmptyString => Ascii.eqb a nl
  | String _ pre' => line_start pre'
  end.

(** Whether the text [s], taken at a line start, is a line with the
    prefix [marker]; with [terminated], only if the line ends with a
    newline. *)
Definition starts_line (terminated : bool) (s marker : string) : bool :=
  strings.HasPrefix s marker
  && (negb terminated
      || contains nl (strings.slice_from (String.length marker) s)).

(** Whether a line of [content] has the prefix [marker]; [at_start]
    tells whether [content] itself begins at a line start. *)
Fixpoint has_line (terminated at_start : bool) (content marker : string)
  {struct content} : bool :=
  match content with
  | EmptyString => at_start && starts_line terminated EmptyString marker
  | String c rest =>
      at_start && starts_line terminated content marker
      || has_line terminated (Ascii.eqb c nl) rest marker
  end.

(** A line of the file starts with [marker]. *)
Definition marker_line (content marker : string) : bool :=
  has_line false true content marker.

(** A line of the file that ends with a newline starts with [marker]. *)
Definition terminated_marker_line (content marker : string) : bool :=
  has_line true true content marker.

(** The file [GetCgroupPaths] opens for a pid. *)
Definition proc_cgroup (pid : Z) : string :=
  filepath.Join ["/proc"; Sprintf_d pid; "cgroup"].

(** Whether the text [sub] occurs in [s]. *)
Fixpoint occurs (sub s : string) {struct s} : bool :=
  match s with
  | EmptyString => strings.HasPrefix EmptyString sub
  | String _ s' => strings.HasPrefix s sub || occurs sub s'
  end.

(** ** Payloads for the examples *)

(** A JSON member with a string value, and one with a number. *)
Definition member_str (key val : string) : string :=
  quoted key +:+ ":" +:+ quoted val.
Definition member_num (key lit : string) : string :=
  quoted key +:+ ":" +:+ lit.

(** An OCI state object left open: the members [id] and [pid], without
    the closing brace. *)
Definition open_state (id pid : string) : string :=
  "{" +:+ member_str "id" id +:+ "," +:+ member_num "pid" pid.

(** ** Hosts for the examples *)

(** A host where every call fails. *)
Definition bare_host : Host :=
  {| os_Open := fun _ => Err (host_error "no such file or directory");
     malloc_handle := None;
     name_to_handle_at := fun _ blk => ((-1)%Z, blk);
     exec_Output := fun _ _ => Err (host_error "executable file not found");
     grpc_Dial := fun _ => Some (host_error "connection refused");
     cri_ContainerStatus := fun _ _ => Err (host_error "connection refused") |}.

(** A host with one readable file. *)
Definition host_with_file (path content : string) : Host :=
  {| os_Open := fun p =>
       if String.eqb p path then Ok content else os_Open bare_host p;
     malloc_handle := malloc_handle bare_host;
     name_to_handle_at := name_to_handle_at bare_host;
     exec_Output := exec_Output bare_host;
     grpc_Dial := grpc_Dial bare_host;
     cri_ContainerStatus := cri_ContainerStatus bare_host |}.

(** A host whose handle lookup returns [err] and leaves [blk]. *)
Definition host_with_handle (err : Z) (blk : cgid_file_handle) : Host :=
  {| os_Open := os_Open bare_host;
     malloc_handle :=
       Some {| handle_bytes := 0; handle_type := 0; cgid := 0 |};
     name_to_handle_at := fun _ _ => (err, blk);
     exec_Output := exec_Output bare_host;
     grpc_Dial := grpc_Dial bare_host;
     cri_ContainerStatus := cri_ContainerStatus bare_host |}.

(** A host whose docker CLI prints [out]. *)
Definition host_with_docker (out : string) : Host :=
  {| os_Open := os_Open bare_host;
     malloc_handle := malloc_handle bare_host;
     name_to_handle_at := name_to_handle_at bare_host;
     exec_Output := fun _ _ => Ok out;
     grpc_Dial := grpc_Dial bare_host;
     cri_ContainerStatus := cri_ContainerStatus bare_host |}.

(** A host whose CRI sockets answer every status request with [info]. *)
Definition host_with_status (info : gmap string string) : Host :=
  {| os_Open := os_Open bare_host;
     malloc_handle := malloc_handle bare_host;
     name_to_handle_at := name_to_handle_at bare_host;
     exec_Output := exec_Output bare_host;
     grpc_Dial := fun _ => None;
     cri_ContainerStatus := fun _ _ => Ok {| Info := info |} |}.

(** ** Package path/filepath, with the cleaning *)
Module filepath_lexical.

(** The elements of a path between its slashes; [cur] is the element
    being read. *)
Fixpoint components (path cur : string) : list string :=
  match path with
  | EmptyString => [cur]
  | String c path' =>
      if Ascii.eqb c "/" then cur :: components path' EmptyString
      else components path' (cur +:+ String c EmptyString)
  end.

(** One element read by [Clean]; [out] holds the elements kept so far,
    the last one first.  An empty element and a dot are dropped; a
    double dot removes the element before it, is dropped at the root
    and is kept where nothing can be removed. *)
Definition clean_step (rooted : bool) (out : list string) (elem : string)
  : list string :=
  if String.eqb elem EmptyString || String.eqb elem "." then out
  else if String.eqb elem ".." then
    match out with
    | last :: out' => if String.eqb last ".." then elem :: out else out'
    | [] => if rooted then [] else [elem]
    end
  else elem :: out.

(** [strings.Join(elems, "/")] *)
Fixpoint slash_join (elems : list string) : string :=
  match elems with
  | [] => EmptyString
  | [e] => e
  | e :: rest => e +:+ "/" +:+ slash_join rest
  end.

(** [Clean(path)]: the shortest path equivalent to [path] by lexical
    processing alone. *)
Definition Clean (path : string) : string :=
  match path with
  | EmptyString => "."
  | String c _ =>
      let rooted := Ascii.eqb c "/" in
      let out := fold_left (clean_step rooted) (components path EmptyString) [] in
      if rooted then "/" +:+ slash_join (rev out)
      else
        match out with
        | [] => "."
        | _ => slash_join (rev out)
        end
  end.

(** [Join(elem...)]: the elements from the first one that is not empty
    on, joined by slashes and cleaned; the empty string when all are
    empty. *)
Fixpoint Join (elem : list string) : string :=
  match elem with
  | [] => EmptyString
  | e :: rest =>
      if String.eqb e EmptyString then Join rest
      else Clean (slash_join elem)
  end.

End filepath_lexical.

(** ** Files and their metadata *)

(** [syscall.Stat_t], with the field the package reads. *)
Record Stat_t : Type := { Ino : Z }.

(** [os.FileInfo]: [Sys] is the underlying data source when it is a
    [*syscall.Stat_t], [None] when it is of another type. *)
Record FileInfo : Type := { Sys : option Stat_t }.

(** What [os.Stat] returns: the metadata, or the error together with
    what [os.IsNotExist] says of it. *)
Inductive StatResult : Type :=
| Stat_ok (fileinfo : FileInfo)
| Stat_fail (err : error) (IsNotExist : bool).

(** The file metadata of the host: [os.Stat(path)]. *)
Record StatHost : Type := { os_Stat : string -> StatResult }.

(** ** Cgroup mount point *)

Definition CgroupPathV2AddMountpoint (h : StatHost) (path : string)
  : string * option error :=
  let pathWithMountpoint :=
    filepath_lexical.Join ["/sys/fs/cgroup/unified"; path] in
  match os_Stat h pathWithMountpoint with
  | Stat_fail _ true =>
      let pathWithMountpoint := filepath_lexical.Join ["/sys/fs/cgroup"; path] in
      match os_Stat h pathWithMountpoint with
      | Stat_fail err true =>
          (EmptyString,
           Some (fmt_Errorf "cannot access cgroup %q: %v"
                            [ArgString path; ArgError err]))
      | _ => (pathWithMountpoint, None)
      end
  | _ => (pathWithMountpoint, None)
  end.

(** ** Mount namespace *)

Definition GetMntNs (h : StatHost) (pid : Z) : Z * option error :=
  match os_Stat h (filepath_lexical.Join ["/proc"; Sprintf_d pid; "ns/mnt"]) with
  | Stat_fail err _ => (0%Z, Some err)
  | Stat_ok fileinfo =>
      match Sys fileinfo with
      | None => (0%Z, Some (fmt_Errorf "Not a syscall.Stat_t" []))
      | Some stat => (Ino stat, None)
      end
  end.

(** ** More texts and hosts for the statements *)

(** No element of the path is a double dot. *)
Definition no_dotdot (path : string) : bool :=
  forallb (fun elem => negb (String.eqb elem ".."))
          (filepath_lexical.components path EmptyString).

(** The path is what [Clean] keeps of it behind a directory: each of
    its elements is a name, and it has no slash at its end. *)
Definition clean_elements (path : string) : bool :=
  forallb (fun elem =>
             negb (String.eqb elem EmptyString || String.eqb elem "."
                   || String.eqb elem ".."))
          (filepath_lexical.components path EmptyString).

(** Bytes that stand for themselves in a JSON string literal: ASCII,
    no control byte, no double quote, no backslash. *)
Definition plain_byte (c : ascii) : bool :=
  (32 <=? utf8.code c)%Z && (utf8.code c <? 128)%Z
  && negb (Ascii.eqb c dquote) && negb (Ascii.eqb c "\").

Fixpoint plain_text (s : string) : bool :=
  match s with
  | EmptyString => true
  | String c s' => plain_byte c && plain_text s'
  end.

Fixpoint all_digits (s : string) : bool :=
  match s with
  | EmptyString => true
  | String c s' => strconv.isDigit c && all_digits s'
  end.

(** A JSON number without fraction and exponent: an optional minus
    sign, then a zero or a digit from 1 to 9 followed by digits. *)
Definition json_natural (s : string) : bool :=
  match s with
  | EmptyString => false
  | String c s' =>
      if Ascii.eqb c "0" then String.eqb s' EmptyString
      else json.isDigit19 c && all_digits s'
  end.

Definition json_integer (s : string) : bool :=
  match s with
  | EmptyString => false
  | String c s' => if Ascii.eqb c "-" then json_natural s' else json_natural s
  end.

(** A host where the files of [present] exist, with the inode [ino],
    and no other. *)
Definition stat_host (present : list string) (ino : Z) : StatHost :=
  {| os_Stat := fun p =>
       if existsb (String.eqb p) present
       then Stat_ok {| Sys := Some {| Ino := ino |} |}
       else Stat_fail (host_error "no such file or directory") true |}.

(** A host where every [Stat] fails on a missing permission. *)
Definition stat_denied_host : StatHost :=
  {| os_Stat := fun _ => Stat_fail (host_error "permission denied") false |}.

(** * Properties *)

#[local] Arguments String.append !s1 s2 : simpl nomatch.

(** ** Strings *)
Section string_facts.

Implicit Types s t p : string.

Lemma app_nil_r s : s +:+ EmptyString = s.
Proof. induction s as [|c s IH]; simpl; [reflexivity | now rewrite IH]. Qed.

Lemma app_assoc s t p : (s +:+ t) +:+ p = s +:+ (t +:+ p).
Proof. induction s as [|c s IH]; simpl; [reflexivity | now rewrite IH]. Qed.

Lemma length_app s t :
  String.length (s +:+ t) = (String.length s + String.length t)%nat.
Proof. induction s as [|c s IH]; simpl; [reflexivity | now rewrite IH]. Qed.

Lemma HasPrefix_app p s : strings.HasPrefix (p +:+ s) p = true.
Proof.
  induction p as [|c p IH]; simpl; [reflexivity |].
  now rewrite Ascii.eqb_refl.
Qed.

Lemma slice_from_app p s : strings.slice_from (String.length p) (p +:+ s) = s.
Proof. induction p as [|c p IH]; simpl; [reflexivity | exact IH]. Qed.

Lemma slice_to_app p s : strings.slice_to (String.length p) (p +:+ s) = p.
Proof.
  induction p as [|c p IH]; simpl; [now destruct s | now rewrite IH].
Qed.

Lemma HasPrefix_split s p :
  strings.HasPrefix s p = true ->
  s = p +:+ strings.slice_from (String.length p) s.
Proof.
  revert s; induction p as [|c p IH]; intros s; simpl; [reflexivity |].
  destruct s as [|b s]; [discriminate |].
  destruct (Ascii.eqb c b) eqn:E; [| discriminate].
  apply Ascii.eqb_eq in E; subst b. intros H. f_equal. now apply IH.
Qed.

Lemma HasPrefix_true s p :
  strings.HasPrefix s p = true <-> exists rest, s = p +:+ rest.
Proof.
  split.
  - intros H. eexists. now apply HasPrefix_split.
  - intros [rest ->]. apply HasPrefix_app.
Qed.

Lemma HasPrefix_false s p :
  (forall rest, s <> p +:+ rest) -> strings.HasPrefix s p = false.
Proof.
  intros H. destruct (strings.HasPrefix s p) eqn:E; [| reflexivity].
  apply HasPrefix_true in E as [rest ->]. now destruct (H rest).
Qed.

Lemma TrimPrefix_app p s : strings.TrimPrefix (p +:+ s) p = s.
Proof.
  unfold strings.TrimPrefix. rewrite HasPrefix_app. apply slice_from_app.
Qed.

Lemma TrimSuffix_app s suffix : strings.TrimSuffix (s +:+ suffix) suffix = s.
Proof.
  unfold strings.TrimSuffix, strings.HasSuffix.
  rewrite length_app.
  replace (String.length s + String.length suffix - String.length suffix)%nat
    with (String.length s) by lia.
  rewrite slice_from_app, String.eqb_refl, slice_to_app.
  destruct (Nat.leb_spec (String.length suffix)
              (String.length s + String.length suffix)); [reflexivity | lia].
Qed.

Lemma contains_app c s t : contains c (s +:+ t) = contains c s || contains c t.
Proof.
  induction s as [|a s IH]; simpl; [reflexivity |].
  rewrite IH. now rewrite orb_assoc.
Qed.

Lemma line_start_snoc_nl s : line_start (s +:+ NL) = true.
Proof.
  induction s as [|a s IH]; simpl; [reflexivity |].
  destruct (s +:+ NL) eqn:E; [now destruct s | exact IH].
Qed.

Lemma line_start_app s t :
  line_start s = true -> line_start t = true -> line_start (s +:+ t) = true.
Proof.
  intros Hs Ht. induction s as [|a s IH]; simpl; [exact Ht |].
  destruct s as [|b s].
  - simpl in *. destruct t as [|b t]; [exact Hs | exact Ht].
  - simpl in IH |- *. apply IH. exact Hs.
Qed.

(** A text with a newline splits at its first newline. *)
Lemma first_newline s :
  contains nl s = true ->
  exists body rest, s = body +:+ NL +:+ rest /\ contains nl body = false.
Proof.
  induction s as [|a s IH]; simpl; [discriminate |].
  destruct (Ascii.eqb a nl) eqn:E; simpl.
  - intros _. apply Ascii.eqb_eq in E; subst a.
    exists EmptyString, s. split; reflexivity.
  - intros H. destruct (IH H) as (body & rest & -> & Hb).
    exists (String a body), rest. split; [reflexivity |].
    simpl. now rewrite E.
Qed.

Lemma ReadString_line body rest :
  contains nl body = false ->
  bufio.ReadString (body +:+ NL +:+ rest) nl = (body +:+ NL, rest, None).
Proof.
  induction body as [|a body IH]; simpl; [reflexivity |].
  destruct (Ascii.eqb a nl); simpl; [discriminate |].
  intros H. specialize (IH H). simpl in IH. now rewrite IH.
Qed.

Lemma ReadString_eof s :
  contains nl s = false ->
  bufio.ReadString s nl = (s, EmptyString, Some io_EOF).
Proof.
  induction s as [|a s IH]; simpl; [reflexivity |].
  destruct (Ascii.eqb a nl); simpl; [discriminate |].
  intros H. now rewrite (IH H).
Qed.

End string_facts.

(** ** The loop over the lines of the cgroup file *)
Section scan_cgroup_facts.

Implicit Types r pre body rest tail : string.

(** The loop, one iteration unfolded. *)
Lemma scan_cgroup_iter r (v1 v2 : string) :
  scan_cgroup r v1 v2 =
  match bufio.ReadString r nl with
  | (line, r', Some _) => (v1, v2)
  | (line, r', None) =>
      if strings.HasPrefix line "1:name=systemd:" then
        scan_cgroup r'
          (strings.TrimSuffix (strings.TrimPrefix line "1:name=systemd:") NL)
          v2
      else if strings.HasPrefix line "0::" then
        scan_cgroup r' v1
          (strings.TrimSuffix (strings.TrimPrefix line "0::") NL)
      else scan_cgroup r' v1 v2
  end.
Proof.
  funelim (scan_cgroup r v1 v2);
    match goal with
    | H : bufio.ReadString _ _ = _ |- _ => rewrite H
    end; reflexivity.
Qed.

Lemma scan_cgroup_eof r (v1 v2 : string) :
  contains nl r = false -> scan_cgroup r v1 v2 = (v1, v2).
Proof.
  intros H. rewrite scan_cgroup_iter, (ReadString_eof r H). reflexivity.
Qed.

Lemma scan_cgroup_line body rest (v1 v2 : string) :
  contains nl body = false ->
  scan_cgroup (body +:+ NL +:+ rest) v1 v2 =
  if strings.HasPrefix (body +:+ NL) "1:name=systemd:" then
    scan_cgroup rest
      (strings.TrimSuffix (strings.TrimPrefix (body +:+ NL) "1:name=systemd:") NL)
      v2
  else if strings.HasPrefix (body +:+ NL) "0::" then
    scan_cgroup rest v1
      (strings.TrimSuffix (strings.TrimPrefix (body +:+ NL) "0::") NL)
  else scan_cgroup rest v1 v2.
Proof.
  intros H. rewrite scan_cgroup_iter at 1.
  rewrite (ReadString_line body rest H). reflexivity.
Qed.

Lemma line_start_no_newline pre :
  line_start pre = true -> contains nl pre = false -> pre = EmptyString.
Proof.
  induction pre as [|a pre IH]; [reflexivity |].
  simpl. destruct (Ascii.eqb a nl); simpl; [discriminate |].
  destruct pre as [|b pre]; [discriminate |].
  intros Hs Hc. specialize (IH Hs Hc). discriminate.
Qed.

Lemma line_start_after_newline body rest :
  line_start (body +:+ NL +:+ rest) = true -> line_start rest = true.
Proof.
  induction body as [|a body IH]; simpl.
  - destruct rest; [reflexivity | trivial].
  - destruct (body +:+ String nl rest) eqn:E; [now destruct body |].
    rewrite <- E. exact IH.
Qed.

(** A marker line of the rest of the file is one of the file. *)
Lemma has_line_rest terminated body rest marker at_start :
  has_line terminated true rest marker = true ->
  has_line terminated at_start (body +:+ NL +:+ rest) marker = true.
Proof.
  intros H. revert at_start.
  induction body as [|a body IH]; intros at_start.
  - change (NL +:+ rest) with (String nl rest). simpl has_line.
    change (Ascii.eqb nl nl) with true. rewrite H. apply orb_true_r.
  - change (String a body +:+ NL +:+ rest)
      with (String a (body +:+ NL +:+ rest)).
    simpl has_line. rewrite IH. apply orb_true_r.
Qed.

Lemma has_line_here terminated content marker :
  starts_line terminated content marker = true ->
  has_line terminated true content marker = true.
Proof.
  intros H. destruct content; simpl; rewrite H; reflexivity.
Qed.

(** A line read that starts with the marker is a marker line. *)
Lemma terminated_marker_line_first body rest marker :
  contains nl marker = false ->
  strings.HasPrefix (body +:+ NL) marker = true ->
  terminated_marker_line (body +:+ NL +:+ rest) marker = true.
Proof.
  intros Hm Hp. apply HasPrefix_split in Hp.
  set (t := strings.slice_from (String.length marker) (body +:+ NL)) in Hp.
  assert (Ht : contains nl t = true).
  { assert (Hc : contains nl (body +:+ NL) = true).
    { rewrite contains_app. simpl. now rewrite orb_true_r. }
    rewrite Hp, contains_app, Hm in Hc. exact Hc. }
  assert (E : body +:+ NL +:+ rest = marker +:+ t +:+ rest).
  { rewrite <- (app_assoc marker), <- Hp. symmetry. apply app_assoc. }
  apply has_line_here. unfold starts_line.
  rewrite E, HasPrefix_app, slice_from_app, contains_app, Ht. reflexivity.
Qed.

Lemma scan_cgroup_keeps_v2 r (v1 v2 : string) :
  terminated_marker_line r "0::" = false ->
  exists v1', scan_cgroup r v1 v2 = (v1', v2).
Proof.
  remember (String.length r) as n eqn:Hn.
  revert r v1 Hn. induction n as [n IH] using lt_wf_ind. intros r v1 Hn Hno.
  destruct (contains nl r) eqn:Hc.
  - destruct (first_newline r Hc) as (body & rest & -> & Hb).
    assert (Hlen : (String.length rest < n)%nat).
    { subst n. rewrite !length_app. simpl. lia. }
    assert (Hrest : terminated_marker_line rest "0::" = false).
    { destruct (terminated_marker_line rest "0::") eqn:H; [| reflexivity].
      unfold terminated_marker_line in Hno.
      now rewrite (has_line_rest true body rest "0::" true H) in Hno. }
    rewrite (scan_cgroup_line body rest v1 v2 Hb).
    destruct (strings.HasPrefix (body +:+ NL) "1:name=systemd:").
    + eapply IH; eauto.
    + destruct (strings.HasPrefix (body +:+ NL) "0::") eqn:Hp.
      * now rewrite (terminated_marker_line_first body rest "0::") in Hno.
      * eapply IH; eauto.
  - exists v1. now apply scan_cgroup_eof.
Qed.

Lemma scan_cgroup_keeps_v1 r (v1 v2 : string) :
  terminated_marker_line r "1:name=systemd:" = false ->
  exists v2', scan_cgroup r v1 v2 = (v1, v2').
Proof.
  remember (String.length r) as n eqn:Hn.
  revert r v2 Hn. induction n as [n IH] using lt_wf_ind. intros r v2 Hn Hno.
  destruct (contains nl r) eqn:Hc.
  - destruct (first_newline r Hc) as (body & rest & -> & Hb).
    assert (Hlen : (String.length rest < n)%nat).
    { subst n. rewrite !length_app. simpl. lia. }
    assert (Hrest : terminated_marker_line rest "1:name=systemd:" = false).
    { destruct (terminated_marker_line rest "1:name=systemd:") eqn:H;
        [| reflexivity].
      unfold terminated_marker_line in Hno.
      now rewrite (has_line_rest true body rest "1:name=systemd:" true H)
        in Hno. }
    rewrite (scan_cgroup_line body rest v1 v2 Hb).
    destruct (strings.HasPrefix (body +:+ NL) "1:name=systemd:") eqn:Hp.
    + now rewrite (terminated_marker_line_first body rest "1:name=systemd:")
        in Hno.
    + destruct (strings.HasPrefix (body +:+ NL) "0::"); eapply IH; eauto.
  - exists v2. now apply scan_cgroup_eof.
Qed.

(** The lines before a line start only change the two variables. *)
Lemma scan_cgroup_skip pre r (v1 v2 : string) :
  line_start pre = true ->
  exists v1' v2', scan_cgroup (pre +:+ r) v1 v2 = scan_cgroup r v1' v2'.
Proof.
  remember (String.length pre) as n eqn:Hn.
  revert pre v1 v2 Hn. induction n as [n IH] using lt_wf_ind.
  intros pre v1 v2 Hn Hs.
  destruct (contains nl pre) eqn:Hc.
  - destruct (first_newline pre Hc) as (body & rest & -> & Hb).
    assert (Hlen : (String.length rest < n)%nat).
    { subst n. rewrite !length_app. simpl. lia. }
    apply line_start_after_newline in Hs.
    rewrite !app_assoc. rewrite (scan_cgroup_line body (rest +:+ r) v1 v2 Hb).
    destruct (strings.HasPrefix (body +:+ NL) "1:name=systemd:");
      [| destruct (strings.HasPrefix (body +:+ NL) "0::")];
      eapply IH; eauto.
  - rewrite (line_start_no_newline pre Hs Hc). simpl. eauto.
Qed.

(** The iteration on a line of the unified hierarchy. *)
Lemma scan_cgroup_v2_line path post (v1 v2 : string) :
  contains nl path = false ->
  scan_cgroup ("0::" +:+ path +:+ NL +:+ post) v1 v2 = scan_cgroup post v1 path.
Proof.
  intros Hp.
  assert (Hb : contains nl ("0::" +:+ path) = false) by exact Hp.
  rewrite <- (app_assoc "0::" path). 
  rewrite (scan_cgroup_line ("0::" +:+ path) post v1 v2 Hb).
  rewrite (app_assoc "0::" path NL).
  change (strings.HasPrefix ("0::" +:+ path +:+ NL) "1:name=systemd:") with false.
  rewrite HasPrefix_app, TrimPrefix_app, TrimSuffix_app. reflexivity.
Qed.

(** The iteration on a line of the systemd hierarchy. *)
Lemma scan_cgroup_v1_line path post (v1 v2 : string) :
  contains nl path = false ->
  scan_cgroup ("1:name=systemd:" +:+ path +:+ NL +:+ post) v1 v2
  = scan_cgroup post path v2.
Proof.
  intros Hp.
  assert (Hb : contains nl ("1:name=systemd:" +:+ path) = false) by exact Hp.
  rewrite <- (app_assoc "1:name=systemd:" path).
  rewrite (scan_cgroup_line ("1:name=systemd:" +:+ path) post v1 v2 Hb).
  rewrite (app_assoc "1:name=systemd:" path NL).
  rewrite HasPrefix_app, TrimPrefix_app, TrimSuffix_app. reflexivity.
Qed.

(** A line, terminated or not, is a line. *)
Lemma has_line_terminated at_start content marker :
  has_line true at_start content marker = true ->
  has_line false at_start content marker = true.
Proof.
  revert at_start. induction content as [|c content IH]; intros at_start.
  - simpl. unfold starts_line. simpl negb. rewrite orb_true_l.
    destruct at_start; simpl; [| discriminate].
    destruct (strings.HasPrefix EmptyString marker); simpl; trivial.
  - simpl. intros H. apply orb_true_iff in H as [H | H].
    + apply andb_true_iff in H as [-> H]. unfold starts_line in *.
      apply andb_true_iff in H as [-> _]. reflexivity.
    + rewrite (IH _ H). apply orb_true_r.
Qed.

End scan_cgroup_facts.

(** ** Cgroup id *)

(** C9.  [GetCgroupID] never returns the pair (0, nil): an id returned
    with a nil error is not zero, and whenever the block cannot be
    allocated, the handle lookup returns an error code, the handle size
    it leaves is not 8, or the id it leaves is 0, the result is 0 with
    the error of the failed lookup.  Otherwise the id is returned. *)
Theorem GetCgroupID_zero_is_failure (h : Host) (path : string) :
  GetCgroupID h path <> (0%Z, None)
  /\ (forall id, GetCgroupID h path = (id, None) -> id <> 0%Z)
  /\ (malloc_handle h = None ->
      GetCgroupID h path
      = (0%Z, Some (fmt_Errorf "GetCgroupID on %q failed" [ArgString path])))
  /\ (forall blk err blk',
        malloc_handle h = Some blk ->
        name_to_handle_at h path
          {| handle_bytes := 8; handle_type := handle_type blk;
             cgid := cgid blk |} = (err, blk') ->
        (err <> 0%Z \/ handle_bytes blk' <> 8%Z \/ uint64 (cgid blk') = 0%Z ->
         GetCgroupID h path
         = (0%Z, Some (fmt_Errorf "GetCgroupID on %q failed" [ArgString path])))
        /\ (err = 0%Z -> handle_bytes blk' = 8%Z -> uint64 (cgid blk') <> 0%Z ->
            GetCgroupID h path = (uint64 (cgid blk'), None))).
Proof.
  assert (Hnz : forall id, GetCgroupID h path = (id, None) -> id <> 0%Z).
  { intros id. unfold GetCgroupID.
    destruct (Z.eqb_spec (uint64 (get_cgroupid h path)) 0) as [E | E].
    - discriminate.
    - intros [= <-]. exact E. }
  split; [| split; [exact Hnz | split]].
  - intros H. now apply (Hnz _ H).
  - intros Hm. unfold GetCgroupID, get_cgroupid. rewrite Hm. reflexivity.
  - intros blk err blk' Hm Hk. unfold GetCgroupID, get_cgroupid.
    rewrite Hm, Hk. split.
    + intros [He | [Hb | Hc]].
      * destruct (Z.eqb_spec err 0); [contradiction | reflexivity].
      * destruct (Z.eqb_spec err 0); [| reflexivity].
        destruct (Z.eqb_spec (handle_bytes blk') 8); [contradiction | reflexivity].
      * destruct (Z.eqb_spec err 0); [| reflexivity].
        destruct (Z.eqb_spec (handle_bytes blk') 8); [| reflexivity].
        simpl negb. cbv iota. rewrite Hc. reflexivity.
    + intros -> -> Hc. simpl.
      destruct (Z.eqb_spec (uint64 (cgid blk')) 0); [contradiction | reflexivity].
Qed.

Lemma GetCgroupID_zero_is_failure_witness :
  GetCgroupID
    (host_with_handle 0 {| handle_bytes := 8; handle_type := 1; cgid := 0 |})
    "/sys/fs/cgroup/unified/kubepods"
  = (0%Z, Some (fmt_Errorf "GetCgroupID on %q failed"
                           [ArgString "/sys/fs/cgroup/unified/kubepods"])).
Proof.
  destruct (GetCgroupID_zero_is_failure
              (host_with_handle 0 {| handle_bytes := 8; handle_type := 1;
                                     cgid := 0 |})
              "/sys/fs/cgroup/unified/kubepods") as (_ & _ & _ & H).
  destruct (H {| handle_bytes := 0; handle_type := 0; cgid := 0 |} 0%Z
              {| handle_bytes := 8; handle_type := 1; cgid := 0 |}
              eq_refl eq_refl) as [Hfail _].
  apply Hfail. right. right. reflexivity.
Defined.

(** ** Cgroup paths *)

(** What [GetCgroupPaths] returns once the file is open, from the two
    variables at the end of the loop. *)
Lemma GetCgroupPaths_after_loop (h : Host) (pid : Z) (content r1 r2 : string) :
  os_Open h (proc_cgroup pid) = Ok content ->
  scan_cgroup content EmptyString EmptyString = (r1, r2) ->
  GetCgroupPaths h pid =
  if String.eqb (if String.eqb r2 "/" then EmptyString else r2) EmptyString
     && String.eqb (if String.eqb r1 "/" then EmptyString else r1) EmptyString
  then (EmptyString, EmptyString,
        Some (fmt_Errorf "cannot find cgroup path in /proc/PID/cgroup" []))
  else (if String.eqb r1 "/" then EmptyString else r1,
        if String.eqb r2 "/" then EmptyString else r2, None).
Proof.
  intros Ho Hs. unfold GetCgroupPaths. unfold proc_cgroup in Ho.
  rewrite Ho, Hs. reflexivity.
Qed.

(** The two variables at the end of the loop when the last terminated
    line of the unified hierarchy is known. *)
Lemma scan_cgroup_last_v2 (pre path post : string) :
  line_start pre = true ->
  contains nl path = false ->
  terminated_marker_line post "0::" = false ->
  exists v1,
    scan_cgroup (pre +:+ "0::" +:+ path +:+ NL +:+ post) EmptyString EmptyString
    = (v1, path).
Proof.
  intros Hs Hp Hpost.
  destruct (scan_cgroup_skip pre ("0::" +:+ path +:+ NL +:+ post)
              EmptyString EmptyString Hs) as (a & b & ->).
  rewrite (scan_cgroup_v2_line path post a b Hp).
  exact (scan_cgroup_keeps_v2 post a path Hpost).
Qed.

Lemma scan_cgroup_last_v1 (pre path post : string) :
  line_start pre = true ->
  contains nl path = false ->
  terminated_marker_line post "1:name=systemd:" = false ->
  exists v2,
    scan_cgroup (pre +:+ "1:name=systemd:" +:+ path +:+ NL +:+ post)
                EmptyString EmptyString
    = (path, v2).
Proof.
  intros Hs Hp Hpost.
  destruct (scan_cgroup_skip pre ("1:name=systemd:" +:+ path +:+ NL +:+ post)
              EmptyString EmptyString Hs) as (a & b & ->).
  rewrite (scan_cgroup_v1_line path post a b Hp).
  exact (scan_cgroup_keeps_v1 post path b Hpost).
Qed.

(** C3.  [GetCgroupPaths] fails with the error of the unreadable file
    when /proc/<pid>/cgroup cannot be opened, and with the other error,
    that no cgroup path was found, when the file is readable and no
    line of it starts with the systemd marker or with the unified
    marker; the latter is the error whenever both paths are empty (or
    the root) at the end of the loop.  The two errors differ. *)
Theorem GetCgroupPaths_failures (h : Host) (pid : Z) :
  (forall e, os_Open h (proc_cgroup pid) = Err e ->
     GetCgroupPaths h pid
     = (EmptyString, EmptyString,
        Some (fmt_Errorf "cannot parse cgroup: %v" [ArgError e])))
  /\ (forall content,
        os_Open h (proc_cgroup pid) = Ok content ->
        marker_line content "1:name=systemd:" = false ->
        marker_line content "0::" = false ->
        GetCgroupPaths h pid
        = (EmptyString, EmptyString,
           Some (fmt_Errorf "cannot find cgroup path in /proc/PID/cgroup" [])))
  /\ (forall content r1 r2,
        os_Open h (proc_cgroup pid) = Ok content ->
        scan_cgroup content EmptyString EmptyString = (r1, r2) ->
        (r1 = EmptyString \/ r1 = "/") -> (r2 = EmptyString \/ r2 = "/") ->
        GetCgroupPaths h pid
        = (EmptyString, EmptyString,
           Some (fmt_Errorf "cannot find cgroup path in /proc/PID/cgroup" [])))
  /\ (forall e,
        fmt_Errorf "cannot parse cgroup: %v" [ArgError e]
        <> fmt_Errorf "cannot find cgroup path in /proc/PID/cgroup" []).
Proof.
  split; [| split; [| split]].
  - intros e He. unfold GetCgroupPaths. unfold proc_cgroup in He.
    rewrite He. reflexivity.
  - intros content Ho H1 H2.
    assert (T1 : terminated_marker_line content "1:name=systemd:" = false).
    { destruct (terminated_marker_line content "1:name=systemd:") eqn:E;
        [| reflexivity].
      apply has_line_terminated in E. unfold marker_line in H1. congruence. }
    assert (T2 : terminated_marker_line content "0::" = false).
    { destruct (terminated_marker_line content "0::") eqn:E; [| reflexivity].
      apply has_line_terminated in E. unfold marker_line in H2. congruence. }
    destruct (scan_cgroup_keeps_v1 content EmptyString EmptyString T1)
      as [b Hb].
    destruct (scan_cgroup_keeps_v2 content EmptyString EmptyString T2)
      as [a Ha].
    assert (b = EmptyString) by congruence. subst b.
    rewrite (GetCgroupPaths_after_loop h pid content _ _ Ho Hb). reflexivity.
  - intros content r1 r2 Ho Hs [-> | ->] [-> | ->];
      rewrite (GetCgroupPaths_after_loop h pid content _ _ Ho Hs); reflexivity.
  - intros e. discriminate.
Qed.

Lemma GetCgroupPaths_failures_witness :
  GetCgroupPaths
    (host_with_file "/proc/1/cgroup" ("12:pids:/kubepods" +:+ NL)) 1
  = (EmptyString, EmptyString,
     Some (fmt_Errorf "cannot find cgroup path in /proc/PID/cgroup" [])).
Proof.
  destruct (GetCgroupPaths_failures
              (host_with_file "/proc/1/cgroup" ("12:pids:/kubepods" +:+ NL)) 1)
    as (_ & H & _).
  apply (H ("12:pids:/kubepods" +:+ NL)); reflexivity.
Defined.

(** C5, as the code has it.  When a line of the readable file is the
    unified marker, a path and a newline, no later terminated line
    starts with the marker, and the path is neither empty nor the root,
    [GetCgroupPaths] returns a nil error and that path as the v2 path:
    the line without one leading marker and without its newline. *)
Theorem GetCgroupPaths_v2_path
  (h : Host) (pid : Z) (content pre path post : string) :
  os_Open h (proc_cgroup pid) = Ok content ->
  content = pre +:+ "0::" +:+ path +:+ NL +:+ post ->
  line_start pre = true ->
  contains nl path = false ->
  terminated_marker_line post "0::" = false ->
  path <> EmptyString ->
  path <> "/" ->
  exists v1, GetCgroupPaths h pid = (v1, path, None).
Proof.
  intros Ho -> Hs Hp Hpost Hne Hroot.
  destruct (scan_cgroup_last_v2 pre path post Hs Hp Hpost) as [v1 Hscan].
  rewrite (GetCgroupPaths_after_loop h pid _ _ _ Ho Hscan).
  apply String.eqb_neq in Hroot. rewrite Hroot.
  apply String.eqb_neq in Hne. rewrite Hne. simpl. eauto.
Qed.

Lemma GetCgroupPaths_v2_path_witness :
  exists v1,
    GetCgroupPaths
      (host_with_file "/proc/1/cgroup"
         ("1:name=systemd:/init.scope" +:+ NL +:+ "0::/kubepods/pod1" +:+ NL)) 1
    = (v1, "/kubepods/pod1", None).
Proof.
  apply (GetCgroupPaths_v2_path
           (host_with_file "/proc/1/cgroup"
              ("1:name=systemd:/init.scope" +:+ NL +:+ "0::/kubepods/pod1" +:+ NL))
           1
           ("1:name=systemd:/init.scope" +:+ NL +:+ "0::/kubepods/pod1" +:+ NL)
           ("1:name=systemd:/init.scope" +:+ NL) "/kubepods/pod1" EmptyString);
    try reflexivity; discriminate.
Defined.

(** C5 as stated fails: the file whose only line is the unified marker
    followed by the root has a line starting with the marker, and
    [GetCgroupPaths] returns an error and an empty v2 path. *)
Lemma GetCgroupPaths_v2_root_line :
  os_Open (host_with_file "/proc/1/cgroup" ("0::/" +:+ NL)) (proc_cgroup 1)
  = Ok ("0::/" +:+ NL)
  /\ marker_line ("0::/" +:+ NL) "0::" = true
  /\ GetCgroupPaths (host_with_file "/proc/1/cgroup" ("0::/" +:+ NL)) 1
     = (EmptyString, EmptyString,
        Some (fmt_Errorf "cannot find cgroup path in /proc/PID/cgroup" [])).
Proof. repeat split; vm_compute; reflexivity. Qed.

(** C6.  [GetCgroupPaths] never returns the root as a path; when the
    last terminated line of a hierarchy is its marker followed by the
    root, the path returned for that hierarchy is the empty string. *)
Theorem GetCgroupPaths_root_is_empty (h : Host) (pid : Z) :
  (forall v1 v2 err,
     GetCgroupPaths h pid = (v1, v2, err) -> v1 <> "/" /\ v2 <> "/")
  /\ (forall content pre post,
        os_Open h (proc_cgroup pid) = Ok content ->
        content = pre +:+ "1:name=systemd:" +:+ "/" +:+ NL +:+ post ->
        line_start pre = true ->
        terminated_marker_line post "1:name=systemd:" = false ->
        exists v2 err, GetCgroupPaths h pid = (EmptyString, v2, err))
  /\ (forall content pre post,
        os_Open h (proc_cgroup pid) = Ok content ->
        content = pre +:+ "0::" +:+ "/" +:+ NL +:+ post ->
        line_start pre = true ->
        terminated_marker_line post "0::" = false ->
        exists v1 err, GetCgroupPaths h pid = (v1, EmptyString, err)).
Proof.
  split; [| split].
  - intros v1 v2 err. unfold GetCgroupPaths.
    destruct (os_Open h _) as [content | e]; [| intros [= <- <- _]; easy].
    destruct (scan_cgroup content EmptyString EmptyString) as [r1 r2].
    destruct (String.eqb_spec r1 "/") as [E1 | E1];
      destruct (String.eqb_spec r2 "/") as [E2 | E2];
      match goal with
      | |- context [if ?c then _ else _] => destruct c
      end; intros [= <- <- _]; split; easy.
  - intros content pre post Ho -> Hs Hpost.
    destruct (scan_cgroup_last_v1 pre "/" post Hs eq_refl Hpost) as [b Hscan].
    rewrite (GetCgroupPaths_after_loop h pid _ _ _ Ho Hscan).
    match goal with
    | |- context [if ?c && _ then _ else _] => destruct c
    end; simpl; eauto.
  - intros content pre post Ho -> Hs Hpost.
    destruct (scan_cgroup_last_v2 pre "/" post Hs eq_refl Hpost) as [a Hscan].
    rewrite (GetCgroupPaths_after_loop h pid _ _ _ Ho Hscan).
    match goal with
    | |- context [if _ && ?c then _ else _] => destruct c
    end; simpl; eauto.
Qed.

Lemma GetCgroupPaths_root_is_empty_witness :
  exists v1 err,
    GetCgroupPaths
      (host_with_file "/proc/1/cgroup"
         ("1:name=systemd:/init.scope" +:+ NL +:+ "0::/" +:+ NL)) 1
    = (v1, EmptyString, err).
Proof.
  destruct (GetCgroupPaths_root_is_empty
              (host_with_file "/proc/1/cgroup"
                 ("1:name=systemd:/init.scope" +:+ NL +:+ "0::/" +:+ NL)) 1)
    as (_ & _ & H).
  apply (H ("1:name=systemd:/init.scope" +:+ NL +:+ "0::/" +:+ NL)
           ("1:name=systemd:/init.scope" +:+ NL) EmptyString);
    reflexivity.
Defined.

(** ** Container id to pid *)

(** C4.  A container id with none of the three runtime prefixes gets
    the error of the unknown runtime, with the pid -1 (not a positive
    pid), and no call to the docker CLI or to a CRI socket is made: the
    trace of calls is left as it was. *)
Theorem PidFromContainerId_unknown_runtime
  (h : Host) (containerID : string) (tr : list event) :
  (forall rest, containerID <> "docker://" +:+ rest) ->
  (forall rest, containerID <> "cri-o://" +:+ rest) ->
  (forall rest, containerID <> "containerd://" +:+ rest) ->
  PidFromContainerId h containerID tr
  = (((-1)%Z,
      Some (fmt_Errorf "unknown container runtime: %s" [ArgString containerID])),
     tr).
Proof.
  intros Hd Hc Hk. unfold PidFromContainerId.
  rewrite (HasPrefix_false _ _ Hd), (HasPrefix_false _ _ Hc),
    (HasPrefix_false _ _ Hk).
  reflexivity.
Qed.

Lemma PidFromContainerId_unknown_runtime_witness :
  PidFromContainerId bare_host "ftp://x" []
  = (((-1)%Z,
      Some (fmt_Errorf "unknown container runtime: %s" [ArgString "ftp://x"])),
     []).
Proof.
  apply (PidFromContainerId_unknown_runtime bare_host "ftp://x" []);
    intros rest; simpl; discriminate.
Defined.

Section runtime_variants.

Variable h : Host.
Variable id : string.
Variable tr : list event.

Lemma PidFromContainerId_docker (out : string) :
  exec_Output h "chroot" ["/host"; "docker"; "inspect"; id] = Ok out ->
  PidFromContainerId h ("docker://" +:+ id) tr
  = (let '(dockerInspect, err) :=
       json.Unmarshal
         (json.store_slice {| State := {| Pid := 0 |} |} store_DockerInspect)
         out [] in
     match err with
     | Some err => ((-1)%Z, Some err)
     | None =>
         if negb (length dockerInspect =? 1)%nat
         then ((-1)%Z, Some (fmt_Errorf "invalid output" []))
         else (Pid (State (nth 0 dockerInspect
                               {| State := {| Pid := 0 |} |})), None)
     end,
     tr ++ [ExecOutput "chroot" ["/host"; "docker"; "inspect"; id]]).
Proof.
  intros Hout. unfold PidFromContainerId.
  rewrite HasPrefix_app, TrimPrefix_app.
  unfold mbind, M_bind, call. rewrite Hout.
  destruct (json.Unmarshal _ out []) as [dockerInspect [err|]];
    [reflexivity |].
  destruct (negb (length dockerInspect =? 1)%nat); reflexivity.
Qed.

Lemma PidFromContainerId_crio (r : ContainerStatusResponse) (pidStr : string) :
  grpc_Dial h CRIO_DEFAULT_SOCKET_PATH = None ->
  cri_ContainerStatus h CRIO_DEFAULT_SOCKET_PATH
  {| ContainerId := id; Verbose := true |} = Ok r ->
  Info r !! "pid" = Some pidStr ->
  PidFromContainerId h ("cri-o://" +:+ id) tr
  = (let '(pid, err) := strconv.Atoi pidStr in
     match err with
     | Some err => ((-1)%Z, Some err)
     | None => (pid, None)
     end,
     (tr ++ [GrpcDial CRIO_DEFAULT_SOCKET_PATH])
        ++ [CriContainerStatus CRIO_DEFAULT_SOCKET_PATH
            {| ContainerId := id; Verbose := true |}]).
Proof.
  intros Hdial Hstatus Hinfo. unfold PidFromContainerId.
  change (strings.HasPrefix ("cri-o://" +:+ id) "docker://") with false.
  cbv iota. rewrite HasPrefix_app, TrimPrefix_app.
  unfold getContainerStatus, getConnection, mbind, M_bind, call.
  rewrite Hdial, Hstatus, Hinfo.
  destruct (strconv.Atoi pidStr) as [pid [err|]]; reflexivity.
Qed.

Lemma PidFromContainerId_containerd
  (r : ContainerStatusResponse) (info : string) :
  grpc_Dial h CONTAINERD_DEFAULT_SOCKET_PATH = None ->
  cri_ContainerStatus h CONTAINERD_DEFAULT_SOCKET_PATH
  {| ContainerId := id; Verbose := true |} = Ok r ->
  Info r !! "info" = Some info ->
  PidFromContainerId h ("containerd://" +:+ id) tr
  = (let '(containerdInspect, err) :=
       json.Unmarshal store_PidStruct info {| Pid := 0 |} in
     match err with
     | Some err => ((-1)%Z, Some err)
     | None =>
         if (Pid containerdInspect =? 0)%Z
         then ((-1)%Z, Some (fmt_Errorf "invalid pid" []))
         else (Pid containerdInspect, None)
     end,
     (tr ++ [GrpcDial CONTAINERD_DEFAULT_SOCKET_PATH])
        ++ [CriContainerStatus CONTAINERD_DEFAULT_SOCKET_PATH
            {| ContainerId := id; Verbose := true |}]).
Proof.
  intros Hdial Hstatus Hinfo. unfold PidFromContainerId.
  change (strings.HasPrefix ("containerd://" +:+ id) "docker://") with false.
  change (strings.HasPrefix ("containerd://" +:+ id) "cri-o://") with false.
  cbv iota. rewrite HasPrefix_app, TrimPrefix_app.
  unfold getContainerStatus, getConnection, mbind, M_bind, call.
  rewrite Hdial, Hstatus, Hinfo.
  destruct (json.Unmarshal store_PidStruct info _)
    as [containerdInspect [err|]]; [reflexivity |].
  destruct (Pid containerdInspect =? 0)%Z; reflexivity.
Qed.

End runtime_variants.

(** C1, as the code has it.  The containerd variant returns the error
    of the invalid pid (and -1) when the pid resolved from the reply is
    zero; a negative pid resolved from the reply of any of the three
    variants is returned as it is, with a nil error. *)
Theorem PidFromContainerId_pid_check (h : Host) (id : string) (tr : list event) :
  (forall r info,
     grpc_Dial h CONTAINERD_DEFAULT_SOCKET_PATH = None ->
     cri_ContainerStatus h CONTAINERD_DEFAULT_SOCKET_PATH
       {| ContainerId := id; Verbose := true |} = Ok r ->
     Info r !! "info" = Some info ->
     json.Unmarshal store_PidStruct info {| Pid := 0 |} = ({| Pid := 0 |}, None) ->
     PidFromContainerId h ("containerd://" +:+ id) tr
     = (((-1)%Z, Some (fmt_Errorf "invalid pid" [])),
        (tr ++ [GrpcDial CONTAINERD_DEFAULT_SOCKET_PATH])
          ++ [CriContainerStatus CONTAINERD_DEFAULT_SOCKET_PATH
                {| ContainerId := id; Verbose := true |}]))
  /\ (forall r info pid,
        grpc_Dial h CONTAINERD_DEFAULT_SOCKET_PATH = None ->
        cri_ContainerStatus h CONTAINERD_DEFAULT_SOCKET_PATH
          {| ContainerId := id; Verbose := true |} = Ok r ->
        Info r !! "info" = Some info ->
        json.Unmarshal store_PidStruct info {| Pid := 0 |}
        = ({| Pid := pid |}, None) ->
        (pid < 0)%Z ->
        PidFromContainerId h ("containerd://" +:+ id) tr
        = ((pid, None),
           (tr ++ [GrpcDial CONTAINERD_DEFAULT_SOCKET_PATH])
             ++ [CriContainerStatus CONTAINERD_DEFAULT_SOCKET_PATH
                   {| ContainerId := id; Verbose := true |}]))
  /\ (forall r pidStr pid,
        grpc_Dial h CRIO_DEFAULT_SOCKET_PATH = None ->
        cri_ContainerStatus h CRIO_DEFAULT_SOCKET_PATH
          {| ContainerId := id; Verbose := true |} = Ok r ->
        Info r !! "pid" = Some pidStr ->
        strconv.Atoi pidStr = (pid, None) ->
        (pid < 0)%Z ->
        PidFromContainerId h ("cri-o://" +:+ id) tr
        = ((pid, None),
           (tr ++ [GrpcDial CRIO_DEFAULT_SOCKET_PATH])
             ++ [CriContainerStatus CRIO_DEFAULT_SOCKET_PATH
                   {| ContainerId := id; Verbose := true |}]))
  /\ (forall out pid,
        exec_Output h "chroot" ["/host"; "docker"; "inspect"; id] = Ok out ->
        json.Unmarshal
          (json.store_slice {| State := {| Pid := 0 |} |} store_DockerInspect)
          out []
        = ([ {| State := {| Pid := pid |} |} ], None) ->
        (pid < 0)%Z ->
        PidFromContainerId h ("docker://" +:+ id) tr
        = ((pid, None),
           tr ++ [ExecOutput "chroot" ["/host"; "docker"; "inspect"; id]])).
Proof.
  split; [| split; [| split]].
  - intros r info Hdial Hstatus Hinfo Hjson.
    rewrite (PidFromContainerId_containerd h id tr r info Hdial Hstatus Hinfo).
    rewrite Hjson. reflexivity.
  - intros r info pid Hdial Hstatus Hinfo Hjson Hneg.
    rewrite (PidFromContainerId_containerd h id tr r info Hdial Hstatus Hinfo).
    rewrite Hjson. simpl.
    destruct (Z.eqb_spec pid 0); [lia | reflexivity].
  - intros r pidStr pid Hdial Hstatus Hinfo Hatoi _.
    rewrite (PidFromContainerId_crio h id tr r pidStr Hdial Hstatus Hinfo).
    rewrite Hatoi. reflexivity.
  - intros out pid Hout Hjson _.
    rewrite (PidFromContainerId_docker h id tr out Hout).
    rewrite Hjson. reflexivity.
Qed.

Lemma PidFromContainerId_pid_check_witness :
  PidFromContainerId
    (host_with_status {[ "info" := "{" +:+ member_num "Pid" "0" +:+ "}" ]})
    "containerd://abc" []
  = (((-1)%Z, Some (fmt_Errorf "invalid pid" [])),
     [GrpcDial CONTAINERD_DEFAULT_SOCKET_PATH;
      CriContainerStatus CONTAINERD_DEFAULT_SOCKET_PATH
        {| ContainerId := "abc"; Verbose := true |}]).
Proof.
  destruct (PidFromContainerId_pid_check
              (host_with_status
                 {[ "info" := "{" +:+ member_num "Pid" "0" +:+ "}" ]})
              "abc" []) as (H & _).
  apply (H {| Info := {[ "info" := "{" +:+ member_num "Pid" "0" +:+ "}" ]} |}
           ("{" +:+ member_num "Pid" "0" +:+ "}"));
    vm_compute; reflexivity.
Defined.

(** C1 as stated fails: the reply of containerd resolves to the pid -5,
    and [PidFromContainerId] returns -5 with a nil error. *)
Lemma PidFromContainerId_negative_pid_returned :
  json.Unmarshal store_PidStruct ("{" +:+ member_num "Pid" "-5" +:+ "}")
                 {| Pid := 0 |}
  = ({| Pid := -5 |}, None)
  /\ PidFromContainerId
       (host_with_status {[ "info" := "{" +:+ member_num "Pid" "-5" +:+ "}" ]})
       "containerd://abc" []
     = (((-5)%Z, None),
        [GrpcDial CONTAINERD_DEFAULT_SOCKET_PATH;
         CriContainerStatus CONTAINERD_DEFAULT_SOCKET_PATH
           {| ContainerId := "abc"; Verbose := true |}]).
Proof. split; vm_compute; reflexivity. Qed.

(** The docker and the CRI-O variants have no check of the pid: a
    stopped container, which docker reports with the pid 0, resolves to
    0 with a nil error. *)
Example PidFromContainerId_docker_zero :
  PidFromContainerId
    (host_with_docker
       ("[{" +:+ quoted "State" +:+ ":{" +:+ member_num "Pid" "0" +:+ "}}]"))
    "docker://abc" []
  = ((0%Z, None), [ExecOutput "chroot" ["/host"; "docker"; "inspect"; "abc"]]).
Proof. vm_compute. reflexivity. Qed.

Example PidFromContainerId_crio_zero :
  PidFromContainerId (host_with_status {[ "pid" := "0" ]}) "cri-o://abc" []
  = ((0%Z, None),
     [GrpcDial CRIO_DEFAULT_SOCKET_PATH;
      CriContainerStatus CRIO_DEFAULT_SOCKET_PATH
        {| ContainerId := "abc"; Verbose := true |}]).
Proof. vm_compute. reflexivity. Qed.

(** ** The recovery pattern *)
Section pattern_facts.

Lemma group1_cons (c : ascii) (s : string) :
  regexp.group1 (String c s) =
  match regexp.group1 s with
  | Some g => Some (String c g)
  | None =>
      if strings.HasPrefix (String c s) regexp.literal
      then Some EmptyString else None
  end.
Proof. reflexivity. Qed.

Lemma group1_no_occurrence (s : string) :
  occurs regexp.literal s = false -> regexp.group1 s = None.
Proof.
  induction s as [|c s IH]; [reflexivity |].
  change (occurs regexp.literal (String c s))
    with (strings.HasPrefix (String c s) regexp.literal
          || occurs regexp.literal s).
  intros H. apply orb_false_iff in H as [Hp Ho].
  now rewrite group1_cons, (IH Ho), Hp.
Qed.

(** The text between the start of an occurrence and its end holds no
    start of another one: the comma occurs in the literal once. *)
Lemma group1_at_occurrence (rest : string) :
  occurs regexp.literal rest = false ->
  regexp.group1 (regexp.literal +:+ rest) = Some EmptyString.
Proof.
  intros H. apply group1_no_occurrence in H.
  cbn. rewrite H. reflexivity.
Qed.

Lemma group1_last_occurrence (pre rest : string) :
  occurs regexp.literal rest = false ->
  regexp.group1 (pre +:+ regexp.literal +:+ rest) = Some pre.
Proof.
  intros H. induction pre as [|c pre IH].
  - now apply group1_at_occurrence.
  - change (String c pre +:+ regexp.literal +:+ rest)
      with (String c (pre +:+ regexp.literal +:+ rest)).
    now rewrite group1_cons, IH.
Qed.

Lemma FindStringSubmatch_none (s : string) :
  occurs regexp.literal s = false -> regexp.FindStringSubmatch s = [].
Proof.
  intros H. unfold regexp.FindStringSubmatch.
  now rewrite (group1_no_occurrence s H).
Qed.

Lemma FindStringSubmatch_last (pre rest : string) :
  occurs regexp.literal rest = false ->
  regexp.FindStringSubmatch (pre +:+ regexp.literal +:+ rest)
  = [pre +:+ regexp.literal +:+ rest; pre].
Proof.
  intros H. unfold regexp.FindStringSubmatch.
  now rewrite (group1_last_occurrence pre rest H).
Qed.

End pattern_facts.

(** ** The OCI state *)

Lemma Unmarshal_syntax_error {T : Type} (st : json.storer T) (data : string) (v : T) :
  json.checkValid data = None ->
  json.Unmarshal st data v = (v, Some json_SyntaxError).
Proof. intros H. unfold json.Unmarshal. now rewrite H. Qed.

(** The strict path: no second attempt after a first one without error. *)
Lemma ParseOCIState_strict (stateBuf : string) (st : ocispec.State) :
  json.Unmarshal ocispec.store_State stateBuf ocispec.zero = (st, None) ->
  ParseOCIState stateBuf = (ocispec.ID st, ocispec.Pid st, None).
Proof. intros H. unfold ParseOCIState. now rewrite H. Qed.

(** The recovery path: the second attempt decodes the text before the
    last occurrence of the literal, closed with a brace, into the state
    the first attempt has left. *)
Lemma ParseOCIState_retry (pre rest : string) (st0 : ocispec.State) (err : error) :
  json.Unmarshal ocispec.store_State (pre +:+ regexp.literal +:+ rest)
                 ocispec.zero = (st0, Some err) ->
  occurs regexp.literal rest = false ->
  ParseOCIState (pre +:+ regexp.literal +:+ rest) =
  match json.Unmarshal ocispec.store_State (pre +:+ "}") st0 with
  | (_, Some err2) =>
      (EmptyString, 0%Z,
       Some (fmt_Errorf ("cannot parse OCI state: %v" +:+ NL +:+ "%s" +:+ NL)
                        [ArgError err2;
                         ArgString (pre +:+ regexp.literal +:+ rest)]))
  | (st, None) => (ocispec.ID st, ocispec.Pid st, None)
  end.
Proof.
  intros H1 Hlast. unfold ParseOCIState. rewrite H1.
  rewrite (FindStringSubmatch_last pre rest Hlast).
  change (nth 1 [pre +:+ regexp.literal +:+ rest; pre] EmptyString) with pre.
  change (negb (length [pre +:+ regexp.literal +:+ rest; pre] =? 2)%nat)
    with false.
  cbv iota.
  destruct (json.Unmarshal ocispec.store_State (pre +:+ "}") st0)
    as [st [err2|]]; reflexivity.
Qed.

(** C2, as the code has it.  For a payload that is not well-formed
    JSON and that is a prefix, the literal of the pattern and a rest
    with no further occurrence of the literal: when the prefix closed
    with a brace decodes strictly to a state, [ParseOCIState] returns
    the id and the pid of that state, with a nil error. *)
Theorem ParseOCIState_recovers_prefix (pre rest : string) (st : ocispec.State) :
  json.checkValid (pre +:+ regexp.literal +:+ rest) = None ->
  occurs regexp.literal rest = false ->
  json.Unmarshal ocispec.store_State (pre +:+ "}") ocispec.zero = (st, None) ->
  ParseOCIState (pre +:+ regexp.literal +:+ rest)
  = (ocispec.ID st, ocispec.Pid st, None).
Proof.
  intros Hsyntax Hlast Hprefix.
  rewrite (ParseOCIState_retry pre rest ocispec.zero json_SyntaxError).
  - now rewrite Hprefix.
  - now apply Unmarshal_syntax_error.
  - exact Hlast.
Qed.

Lemma ParseOCIState_recovers_prefix_witness :
  ParseOCIState
    (open_state "abc" "123" +:+ regexp.literal
     +:+ "{" +:+ member_str "k" "v" +:+ ",}}")
  = ("abc", 123%Z, None).
Proof.
  apply (ParseOCIState_recovers_prefix
           (open_state "abc" "123")
           ("{" +:+ member_str "k" "v" +:+ ",}}")
           {| ocispec.Version := EmptyString; ocispec.ID := "abc";
              ocispec.Status := EmptyString; ocispec.Pid := 123;
              ocispec.Bundle := EmptyString; ocispec.Annotations := None |});
    vm_compute; reflexivity.
Defined.

(** C2 as stated fails: the payload is a well-formed prefix followed by
    a malformed annotations member, the prefix closed with a brace
    decodes strictly to the id a and the pid 1, the payload does not
    decode, and [ParseOCIState] returns an error: the annotations hold
    the literal once more, and the pattern cuts at its last
    occurrence. *)
Lemma ParseOCIState_literal_twice :
  json.Unmarshal ocispec.store_State
    (open_state "a" "1" +:+ regexp.literal
     +:+ "{" +:+ member_str "k" "v" +:+ regexp.literal +:+ quoted "w")
    ocispec.zero
  = (ocispec.zero, Some json_SyntaxError)
  /\ json.Unmarshal ocispec.store_State (open_state "a" "1" +:+ "}") ocispec.zero
     = ({| ocispec.Version := EmptyString; ocispec.ID := "a";
           ocispec.Status := EmptyString; ocispec.Pid := 1;
           ocispec.Bundle := EmptyString; ocispec.Annotations := None |}, None)
  /\ ParseOCIState
       (open_state "a" "1" +:+ regexp.literal
        +:+ "{" +:+ member_str "k" "v" +:+ regexp.literal +:+ quoted "w")
     = (EmptyString, 0%Z,
        Some (fmt_Errorf ("cannot parse OCI state: %v" +:+ NL +:+ "%s" +:+ NL)
                [ArgError json_SyntaxError;
                 ArgString
                   (open_state "a" "1" +:+ regexp.literal
                    +:+ "{" +:+ member_str "k" "v" +:+ regexp.literal
                    +:+ quoted "w")])).
Proof. repeat split; vm_compute; reflexivity. Qed.

(** The second attempt decodes into the state of the first: a member
    stored by a first attempt that failed on a type error stays when
    the prefix does not set it. *)
Example ParseOCIState_keeps_first_attempt :
  ParseOCIState
    ("{" +:+ member_num "pid" "7" +:+ regexp.literal +:+ "5,"
     +:+ member_str "id" "late" +:+ "}")
  = ("late", 7%Z, None)
  /\ json.Unmarshal ocispec.store_State ("{" +:+ member_num "pid" "7" +:+ "}")
       ocispec.zero
     = ({| ocispec.Version := EmptyString; ocispec.ID := EmptyString;
           ocispec.Status := EmptyString; ocispec.Pid := 7;
           ocispec.Bundle := EmptyString; ocispec.Annotations := None |}, None).
Proof. split; vm_compute; reflexivity. Qed.

(** C7.  The payload with the id abc and the pid 123 parses to them,
    with a nil error. *)
Theorem ParseOCIState_id_pid :
  ParseOCIState ("{" +:+ member_str "id" "abc" +:+ "," +:+ member_num "pid" "123"
                 +:+ "}")
  = ("abc", 123%Z, None).
Proof. vm_compute. reflexivity. Qed.

(** C8.  A payload that does not decode strictly and holds no
    occurrence of the literal of the pattern gets the error that
    carries the (empty) matches, the error of the decoding and the
    payload; the id and the pid returned are the zero values. *)
Theorem ParseOCIState_unparseable
  (stateBuf : string) (st0 : ocispec.State) (err : error) :
  json.Unmarshal ocispec.store_State stateBuf ocispec.zero = (st0, Some err) ->
  occurs regexp.literal stateBuf = false ->
  ParseOCIState stateBuf
  = (EmptyString, 0%Z,
     Some (fmt_Errorf
             ("cannot parse OCI state: matches=%+v" +:+ NL +:+ " %v" +:+ NL
              +:+ "%s" +:+ NL)
             [ArgStrings []; ArgError err; ArgString stateBuf])).
Proof.
  intros H1 Hnone. unfold ParseOCIState. rewrite H1.
  rewrite (FindStringSubmatch_none stateBuf Hnone). reflexivity.
Qed.

Lemma ParseOCIState_unparseable_witness :
  ParseOCIState (open_state "abc" "123")
  = (EmptyString, 0%Z,
     Some (fmt_Errorf
             ("cannot parse OCI state: matches=%+v" +:+ NL +:+ " %v" +:+ NL
              +:+ "%s" +:+ NL)
             [ArgStrings []; ArgError json_SyntaxError;
              ArgString (open_state "abc" "123")])).
Proof.
  apply (ParseOCIState_unparseable (open_state "abc" "123") ocispec.zero
           json_SyntaxError);
    vm_compute; reflexivity.
Defined.

(** C10.  Whenever the payload decodes strictly, [ParseOCIState]
    returns the id and the pid of the decoded state with a nil error,
    whatever they are: the empty object and the object with an empty id
    and the pid 0 give the empty id and 0, and a negative pid is
    returned as it is. *)
Theorem ParseOCIState_no_validation :
  (forall stateBuf st,
     json.Unmarshal ocispec.store_State stateBuf ocispec.zero = (st, None) ->
     ParseOCIState stateBuf = (ocispec.ID st, ocispec.Pid st, None))
  /\ ParseOCIState "{}" = (EmptyString, 0%Z, None)
  /\ ParseOCIState ("{" +:+ member_str "id" EmptyString +:+ ","
                    +:+ member_num "pid" "0" +:+ "}")
     = (EmptyString, 0%Z, None)
  /\ ParseOCIState ("{" +:+ member_str "id" "abc" +:+ "}") = ("abc", 0%Z, None)
  /\ ParseOCIState ("{" +:+ member_num "pid" "-5" +:+ "}")
     = (EmptyString, (-5)%Z, None).
Proof.
  split; [exact ParseOCIState_strict |].
  repeat split; vm_compute; reflexivity.
Qed.

Lemma ParseOCIState_no_validation_witness :
  ParseOCIState "{}" = (EmptyString, 0%Z, None).
Proof.
  destruct ParseOCIState_no_validation as (H & _).
  apply (H "{}" ocispec.zero). vm_compute. reflexivity.
Defined.

(** * Further properties *)

(** ** The cgroup file, line by line *)

(** Reading a file made of two parts that meet at a line start is
    reading the second part with the two paths the first part gives. *)
Lemma scan_cgroup_parts (pre r v1 v2 : string) :
  line_start pre = true ->
  scan_cgroup (pre +:+ r) v1 v2
  = scan_cgroup r (fst (scan_cgroup pre v1 v2)) (snd (scan_cgroup pre v1 v2)).
Proof.
  remember (String.length pre) as n eqn:Hn.
  revert pre v1 v2 Hn. induction n as [n IH] using lt_wf_ind.
  intros pre v1 v2 Hn Hs.
  destruct (contains nl pre) eqn:Hc.
  - destruct (first_newline pre Hc) as (body & rest & -> & Hb).
    assert (Hlen : (String.length rest < n)%nat).
    { subst n. rewrite !length_app. simpl. lia. }
    apply line_start_after_newline in Hs.
    rewrite !app_assoc.
    rewrite (scan_cgroup_line body (rest +:+ r) v1 v2 Hb).
    rewrite (scan_cgroup_line body rest v1 v2 Hb).
    destruct (strings.HasPrefix (body +:+ NL) "1:name=systemd:");
      [| destruct (strings.HasPrefix (body +:+ NL) "0::")];
      eapply IH; eauto.
  - rewrite (line_start_no_newline pre Hs Hc).
    rewrite (scan_cgroup_eof EmptyString v1 v2 eq_refl). reflexivity.
Qed.

(** What one terminated line does to the two paths. *)
Lemma scan_cgroup_one_line (body v1 v2 : string) :
  contains nl body = false ->
  scan_cgroup (body +:+ NL) v1 v2 =
  if strings.HasPrefix (body +:+ NL) "1:name=systemd:" then
    (strings.TrimSuffix (strings.TrimPrefix (body +:+ NL) "1:name=systemd:") NL,
     v2)
  else if strings.HasPrefix (body +:+ NL) "0::" then
    (v1, strings.TrimSuffix (strings.TrimPrefix (body +:+ NL) "0::") NL)
  else (v1, v2).
Proof.
  intros Hb.
  rewrite <- (app_nil_r (body +:+ NL)) at 1. rewrite app_assoc.
  rewrite (scan_cgroup_line body EmptyString v1 v2 Hb).
  destruct (strings.HasPrefix (body +:+ NL) "1:name=systemd:");
    [| destruct (strings.HasPrefix (body +:+ NL) "0::")];
    apply scan_cgroup_eof; reflexivity.
Qed.

(** X1.  The loop of [GetCgroupPaths] composes over the parts of a file
    that meet at a line start: the paths found in the first part are
    the starting values for the second. *)
Theorem scan_cgroup_composes (pre r v1 v2 a b : string) :
  line_start pre = true ->
  scan_cgroup pre v1 v2 = (a, b) ->
  scan_cgroup (pre +:+ r) v1 v2 = scan_cgroup r a b.
Proof.
  intros Hs Hpre. rewrite (scan_cgroup_parts pre r v1 v2 Hs), Hpre. reflexivity.
Qed.

Lemma scan_cgroup_composes_witness :
  scan_cgroup (("1:name=systemd:/init.scope" +:+ NL) +:+ ("0::/kubepods" +:+ NL))
              EmptyString EmptyString
  = scan_cgroup ("0::/kubepods" +:+ NL) "/init.scope" EmptyString.
Proof.
  apply (scan_cgroup_composes ("1:name=systemd:/init.scope" +:+ NL)
           ("0::/kubepods" +:+ NL) EmptyString EmptyString
           "/init.scope" EmptyString); reflexivity.
Defined.

(** X2.  A last line without a newline is never used: the file with
    such a tail gives what the file without it gives. *)
Theorem GetCgroupPaths_unterminated_tail
  (h h' : Host) (pid : Z) (content tail : string) :
  os_Open h (proc_cgroup pid) = Ok (content +:+ tail) ->
  os_Open h' (proc_cgroup pid) = Ok content ->
  line_start content = true ->
  contains nl tail = false ->
  GetCgroupPaths h pid = GetCgroupPaths h' pid.
Proof.
  intros Ho Ho' Hs Ht.
  assert (E : scan_cgroup (content +:+ tail) EmptyString EmptyString
              = scan_cgroup content EmptyString EmptyString).
  { rewrite (scan_cgroup_parts content tail _ _ Hs).
    rewrite (scan_cgroup_eof tail _ _ Ht). now destruct (scan_cgroup content _ _). }
  destruct (scan_cgroup content EmptyString EmptyString) as [r1 r2] eqn:Hscan.
  rewrite (GetCgroupPaths_after_loop h pid _ r1 r2 Ho E).
  rewrite (GetCgroupPaths_after_loop h' pid _ r1 r2 Ho' Hscan).
  reflexivity.
Qed.

Lemma GetCgroupPaths_unterminated_tail_witness :
  GetCgroupPaths
    (host_with_file "/proc/1/cgroup"
       (("1:name=systemd:/init.scope" +:+ NL) +:+ "0::/kubepods")) 1
  = GetCgroupPaths
      (host_with_file "/proc/1/cgroup" ("1:name=systemd:/init.scope" +:+ NL)) 1.
Proof.
  apply (GetCgroupPaths_unterminated_tail _ _ 1
           ("1:name=systemd:/init.scope" +:+ NL) "0::/kubepods");
    reflexivity.
Defined.

(** X3.  A terminated line that starts with neither marker changes
    nothing: the file with the line gives what the file without it
    gives. *)
Theorem GetCgroupPaths_other_line
  (h h' : Host) (pid : Z) (pre line post : string) :
  os_Open h (proc_cgroup pid) = Ok (pre +:+ (line +:+ NL) +:+ post) ->
  os_Open h' (proc_cgroup pid) = Ok (pre +:+ post) ->
  line_start pre = true ->
  contains nl line = false ->
  strings.HasPrefix (line +:+ NL) "1:name=systemd:" = false ->
  strings.HasPrefix (line +:+ NL) "0::" = false ->
  GetCgroupPaths h pid = GetCgroupPaths h' pid.
Proof.
  intros Ho Ho' Hs Hl H1 H2.
  assert (E : scan_cgroup (pre +:+ (line +:+ NL) +:+ post) EmptyString EmptyString
              = scan_cgroup (pre +:+ post) EmptyString EmptyString).
  { rewrite (scan_cgroup_parts pre _ _ _ Hs).
    rewrite (scan_cgroup_parts pre post _ _ Hs).
    rewrite (scan_cgroup_parts (line +:+ NL) post _ _ (line_start_snoc_nl line)).
    rewrite (scan_cgroup_one_line line _ _ Hl), H1, H2. reflexivity. }
  destruct (scan_cgroup (pre +:+ post) EmptyString EmptyString)
    as [r1 r2] eqn:Hscan.
  rewrite (GetCgroupPaths_after_loop h pid _ r1 r2 Ho E).
  rewrite (GetCgroupPaths_after_loop h' pid _ r1 r2 Ho' Hscan).
  reflexivity.
Qed.

Lemma GetCgroupPaths_other_line_witness :
  GetCgroupPaths
    (host_with_file "/proc/1/cgroup"
       (("0::/kubepods" +:+ NL) +:+ ("12:pids:/x" +:+ NL)
        +:+ ("1:name=systemd:/init.scope" +:+ NL))) 1
  = GetCgroupPaths
      (host_with_file "/proc/1/cgroup"
         (("0::/kubepods" +:+ NL) +:+ ("1:name=systemd:/init.scope" +:+ NL))) 1.
Proof.
  apply (GetCgroupPaths_other_line _ _ 1 ("0::/kubepods" +:+ NL) "12:pids:/x"
           ("1:name=systemd:/init.scope" +:+ NL));
    reflexivity.
Defined.

(** The rest of a terminated line behind a prefix without newline. *)
Lemma line_behind_prefix (body marker t : string) :
  contains nl marker = false ->
  body +:+ NL = marker +:+ t ->
  exists t', t = t' +:+ NL /\ body = marker +:+ t'.
Proof.
  revert body. induction marker as [|c marker IH]; intros body Hm E.
  - exists body. split; [symmetry; exact E | reflexivity].
  - simpl in Hm. apply orb_false_iff in Hm as [Hc Hm].
    destruct body as [|b body].
    + simpl in E. injection E as E1 _. subst c.
      unfold nl in Hc. now rewrite Ascii.eqb_refl in Hc.
    + simpl in E. injection E as -> E.
      destruct (IH body Hm E) as (t' & -> & ->).
      exists t'. split; reflexivity.
Qed.

Lemma trimmed_line_no_newline (body marker : string) :
  contains nl marker = false ->
  contains nl body = false ->
  strings.HasPrefix (body +:+ NL) marker = true ->
  contains nl
    (strings.TrimSuffix (strings.TrimPrefix (body +:+ NL) marker) NL) = false.
Proof.
  intros Hm Hb Hp. unfold strings.TrimPrefix. rewrite Hp.
  apply HasPrefix_split in Hp.
  destruct (line_behind_prefix body marker _ Hm Hp) as (t' & -> & E).
  rewrite TrimSuffix_app. rewrite E, contains_app in Hb.
  now apply orb_false_iff in Hb as [_ Hb].
Qed.

Lemma scan_cgroup_no_newline (r v1 v2 : string) :
  contains nl v1 = false ->
  contains nl v2 = false ->
  contains nl (fst (scan_cgroup r v1 v2)) = false
  /\ contains nl (snd (scan_cgroup r v1 v2)) = false.
Proof.
  remember (String.length r) as n eqn:Hn.
  revert r v1 v2 Hn. induction n as [n IH] using lt_wf_ind.
  intros r v1 v2 Hn H1 H2.
  destruct (contains nl r) eqn:Hc.
  - destruct (first_newline r Hc) as (body & rest & -> & Hb).
    assert (Hlen : (String.length rest < n)%nat).
    { subst n. rewrite !length_app. simpl. lia. }
    rewrite (scan_cgroup_line body rest v1 v2 Hb).
    destruct (strings.HasPrefix (body +:+ NL) "1:name=systemd:") eqn:P1;
      [| destruct (strings.HasPrefix (body +:+ NL) "0::") eqn:P2].
    + eapply IH; eauto. now apply trimmed_line_no_newline.
    + eapply IH; eauto. now apply trimmed_line_no_newline.
    + eapply IH; eauto.
  - rewrite (scan_cgroup_eof r v1 v2 Hc). now split.
Qed.

(** X4.  Every result of [GetCgroupPaths] is well formed: neither path
    holds a newline; with a nil error at least one path is not empty;
    with an error both paths are empty. *)
Theorem GetCgroupPaths_result_shape
  (h : Host) (pid : Z) (v1 v2 : string) (err : option error) :
  GetCgroupPaths h pid = (v1, v2, err) ->
  contains nl v1 = false /\ contains nl v2 = false
  /\ (err = None -> v1 <> EmptyString \/ v2 <> EmptyString)
  /\ (err <> None -> v1 = EmptyString /\ v2 = EmptyString).
Proof.
  unfold GetCgroupPaths.
  destruct (os_Open h _) as [content | e].
  - destruct (scan_cgroup_no_newline content EmptyString EmptyString
                eq_refl eq_refl) as [N1 N2].
    destruct (scan_cgroup content EmptyString EmptyString) as [r1 r2].
    simpl in N1, N2.
    set (n1 := if String.eqb r1 "/" then EmptyString else r1).
    set (n2 := if String.eqb r2 "/" then EmptyString else r2).
    assert (M1 : contains nl n1 = false).
    { subst n1. now destruct (String.eqb r1 "/"). }
    assert (M2 : contains nl n2 = false).
    { subst n2. now destruct (String.eqb r2 "/"). }
    destruct (String.eqb_spec n2 EmptyString) as [E2 | E2];
      destruct (String.eqb_spec n1 EmptyString) as [E1 | E1]; simpl;
      intros [= <- <- <-]; repeat split; auto; try easy.
  - intros [= <- <- <-]. repeat split; easy.
Qed.

Lemma GetCgroupPaths_result_shape_witness :
  contains nl "/init.scope" = false /\ contains nl "/kubepods" = false
  /\ (@None error = None -> "/init.scope" <> EmptyString \/ "/kubepods" <> EmptyString)
  /\ (@None error <> None -> "/init.scope" = EmptyString /\ "/kubepods" = EmptyString).
Proof.
  apply (GetCgroupPaths_result_shape
           (host_with_file "/proc/1/cgroup"
              (("1:name=systemd:/init.scope" +:+ NL) +:+ ("0::/kubepods" +:+ NL)))
           1 "/init.scope" "/kubepods" None).
  reflexivity.
Defined.

(** X5.  When a line of the readable file is the systemd marker, a path
    and a newline, no later terminated line starts with the marker, and
    the path is neither empty nor the root, [GetCgroupPaths] returns a
    nil error and that path as the v1 path. *)
Theorem GetCgroupPaths_v1_path
  (h : Host) (pid : Z) (content pre path post : string) :
  os_Open h (proc_cgroup pid) = Ok content ->
  content = pre +:+ "1:name=systemd:" +:+ path +:+ NL +:+ post ->
  line_start pre = true ->
  contains nl path = false ->
  terminated_marker_line post "1:name=systemd:" = false ->
  path <> EmptyString ->
  path <> "/" ->
  exists v2, GetCgroupPaths h pid = (path, v2, None).
Proof.
  intros Ho -> Hs Hp Hpost Hne Hroot.
  destruct (scan_cgroup_last_v1 pre path post Hs Hp Hpost) as [b Hscan].
  rewrite (GetCgroupPaths_after_loop h pid _ _ _ Ho Hscan).
  apply String.eqb_neq in Hroot. rewrite Hroot.
  apply String.eqb_neq in Hne. rewrite Hne.
  rewrite andb_false_r. eauto.
Qed.

Lemma GetCgroupPaths_v1_path_witness :
  exists v2,
    GetCgroupPaths
      (host_with_file "/proc/1/cgroup"
         ("12:pids:/x" +:+ NL +:+ "1:name=systemd:/init.scope" +:+ NL)) 1
    = ("/init.scope", v2, None).
Proof.
  apply (GetCgroupPaths_v1_path
           (host_with_file "/proc/1/cgroup"
              ("12:pids:/x" +:+ NL +:+ "1:name=systemd:/init.scope" +:+ NL))
           1
           ("12:pids:/x" +:+ NL +:+ "1:name=systemd:/init.scope" +:+ NL)
           ("12:pids:/x" +:+ NL) "/init.scope" EmptyString);
    try reflexivity; discriminate.
Defined.

(** ** Decimal texts *)

(** The value the digits of [d] give after [acc]. *)
Lemma digits_of_uint (d : Decimal.uint) (acc : Z) :
  exists v,
    strconv.digits (NilEmpty.string_of_uint d) acc = Some v
    /\ (forall p, acc = Z.pos p -> v = Z.pos (Pos.of_uint_acc d p))
    /\ (acc = 0%Z -> v = Z.of_N (Pos.of_uint d)).
Proof.
  revert acc. induction d; intros acc; simpl.
  1: { exists acc. split; [reflexivity |].
       split; [now intros p -> | now intros ->]. }
  all: match goal with
       | |- context [(Z.of_nat (nat_of_ascii ?c) - 48)%Z] =>
           let k := eval vm_compute in (Z.of_nat (nat_of_ascii c) - 48)%Z in
           change (Z.of_nat (nat_of_ascii c) - 48)%Z with k
       end.
  all: match goal with
       | |- context [strconv.digits _ ?a] =>
           destruct (IHd a) as (v & Hv & Hp & Hz)
       end.
  all: exists v; split; [exact Hv | split].
  all: try (intros p ->; apply Hp; lia).
  all: intros ->; first [ apply Hz; reflexivity | apply Hp; reflexivity ].
Qed.

Lemma digits_of_uint_value (d : Decimal.uint) :
  strconv.digits (NilEmpty.string_of_uint d) 0 = Some (Z.of_uint d).
Proof.
  destruct (digits_of_uint d 0) as (v & Hv & _ & Hz).
  rewrite Hv, (Hz eq_refl). reflexivity.
Qed.

(** The first byte of the text of a number is a digit. *)
Lemma string_of_uint_head (d : Decimal.uint) :
  d <> Decimal.Nil ->
  exists c s, NilEmpty.string_of_uint d = String c s
              /\ Ascii.eqb c "-" = false /\ Ascii.eqb c "+" = false
              /\ Ascii.eqb c "/" = false /\ Ascii.eqb c "." = false.
Proof.
  destruct d; [now intros H | ..]; intros _; simpl; eauto 10.
Qed.

Lemma Atoi_Sprintf_d (n : Z) :
  (- 2 ^ 63 <= n < 2 ^ 63)%Z ->
  strconv.Atoi (Sprintf_d n) = (n, None).
Proof.
  intros Hn. unfold strconv.Atoi, Sprintf_d.
  pose proof (DecimalZ.of_to n) as Hof.
  destruct (Z.to_int n) as [d | d] eqn:Hd; simpl in Hof.
  - assert (Hdig : strconv.digits (NilZero.string_of_uint d) 0 = Some n).
    { destruct d; try (rewrite <- Hof; apply (digits_of_uint_value _)).
      rewrite <- Hof. reflexivity. }
    assert (Hhead : exists c s, NilZero.string_of_uint d = String c s
                      /\ Ascii.eqb c "-" = false /\ Ascii.eqb c "+" = false).
    { destruct d; simpl; eauto 10. }
    destruct Hhead as (c & s & E & Hm & Hpl).
    simpl NilZero.string_of_int. unfold strconv.parseInt64.
    rewrite E in *. rewrite Hm, Hpl. simpl orb. cbv iota.
    rewrite Hdig. simpl negb. simpl andb.
    destruct (Z.leb_spec (2 ^ 63) n); [lia | reflexivity].
  - assert (Hdig : strconv.digits (NilZero.string_of_uint d) 0 = Some (- n)%Z).
    { replace (- n)%Z with (Z.of_uint d) by lia.
      destruct d; try apply (digits_of_uint_value _). reflexivity. }
    assert (Hhead : exists c s, NilZero.string_of_uint d = String c s).
    { destruct d; simpl; eauto. }
    destruct Hhead as (c & s & E).
    simpl NilZero.string_of_int. unfold strconv.parseInt64.
    change (Ascii.eqb "-" "-") with true. rewrite orb_true_r. cbv iota.
    rewrite E in *. rewrite Hdig. simpl negb. simpl andb.
    destruct (Z.ltb_spec (2 ^ 63) (- n)); [lia |].
    rewrite Z.opp_involutive. reflexivity.
Qed.

Lemma Sprintf_d_inj (n m : Z) : Sprintf_d n = Sprintf_d m -> n = m.
Proof.
  unfold Sprintf_d. intros E.
  assert (Hnn : forall z, Z.to_int z <> Decimal.Pos Decimal.Nil
                          /\ Z.to_int z <> Decimal.Neg Decimal.Nil).
  { intros [|p|p]; simpl; split; try discriminate;
      intros [= H]; now apply (DecimalPos.Unsigned.to_uint_nonnil p). }
  apply DecimalZ.to_int_inj.
  pose proof (NilZero.isi (Z.to_int n) (proj1 (Hnn n)) (proj2 (Hnn n))) as H1.
  pose proof (NilZero.isi (Z.to_int m) (proj1 (Hnn m)) (proj2 (Hnn m))) as H2.
  rewrite E in H1. congruence.
Qed.

(** The text of a number is a file name: it holds no slash, and it is
    neither empty nor a dot nor a double dot. *)
Lemma string_of_uint_no_slash (d : Decimal.uint) :
  contains "/" (NilEmpty.string_of_uint d) = false.
Proof. induction d; simpl; auto. Qed.

Lemma Sprintf_d_name (n : Z) :
  contains "/" (Sprintf_d n) = false
  /\ String.eqb (Sprintf_d n) EmptyString = false
  /\ String.eqb (Sprintf_d n) "." = false
  /\ String.eqb (Sprintf_d n) ".." = false.
Proof.
  unfold Sprintf_d. destruct (Z.to_int n) as [d | d]; simpl.
  - destruct d; simpl; rewrite ?string_of_uint_no_slash; repeat split;
      reflexivity.
  - destruct d; simpl; rewrite ?string_of_uint_no_slash; repeat split;
      reflexivity.
Qed.

(** ** Cleaning a path *)
Section clean_facts.

Import filepath_lexical.

Lemma components_app_slash (a b cur : string) :
  components (a +:+ String "/" b) cur
  = components a cur ++ components b EmptyString.
Proof.
  revert cur. induction a as [|c a IH]; intros cur; simpl.
  - reflexivity.
  - destruct (Ascii.eqb c "/"); simpl; now rewrite IH.
Qed.

Lemma components_name (s cur : string) :
  contains "/" s = false -> components s cur = [cur +:+ s].
Proof.
  revert cur. induction s as [|c s IH]; intros cur; simpl.
  - now rewrite app_nil_r.
  - rewrite Ascii.eqb_sym. destruct (Ascii.eqb "/" c); simpl; [discriminate |].
    intros H. rewrite (IH _ H), app_assoc. reflexivity.
Qed.

(** Under /proc, the directory of a pid keeps its name. *)
Lemma Join_proc_cgroup (d : string) :
  contains "/" d = false ->
  String.eqb d EmptyString = false ->
  String.eqb d "." = false ->
  String.eqb d ".." = false ->
  Join ["/proc"; d; "cgroup"] = "/proc/" +:+ d +:+ "/cgroup".
Proof.
  intros Hs He H1 H2. unfold Join.
  change (String.eqb "/proc" EmptyString) with false. cbv iota.
  change (slash_join ["/proc"; d; "cgroup"])
    with ("/proc" +:+ String "/" (d +:+ String "/" "cgroup")).
  unfold Clean.
  change ("/proc" +:+ String "/" (d +:+ String "/" "cgroup"))
    with (String "/" ("proc" +:+ String "/" (d +:+ String "/" "cgroup"))).
  change (Ascii.eqb "/" "/") with true. cbv iota zeta.
  change (String "/" ("proc" +:+ String "/" (d +:+ String "/" "cgroup")))
    with ("/proc" +:+ String "/" (d +:+ String "/" "cgroup")).
  rewrite !components_app_slash, (components_name d EmptyString Hs).
  change (components "/proc" EmptyString) with [EmptyString; "proc"].
  change (components "cgroup" EmptyString) with ["cgroup"].
  change (EmptyString +:+ d) with d.
  simpl fold_left. unfold clean_step at 2. rewrite He, H1, H2.
  reflexivity.
Qed.

Lemma Join_proc_ns_mnt (d : string) :
  contains "/" d = false ->
  String.eqb d EmptyString = false ->
  String.eqb d "." = false ->
  String.eqb d ".." = false ->
  Join ["/proc"; d; "ns/mnt"] = "/proc/" +:+ d +:+ "/ns/mnt".
Proof.
  intros Hs He H1 H2. unfold Join.
  change (String.eqb "/proc" EmptyString) with false. cbv iota.
  change (slash_join ["/proc"; d; "ns/mnt"])
    with ("/proc" +:+ String "/" (d +:+ String "/" "ns/mnt")).
  unfold Clean.
  change ("/proc" +:+ String "/" (d +:+ String "/" "ns/mnt"))
    with (String "/" ("proc" +:+ String "/" (d +:+ String "/" "ns/mnt"))).
  change (Ascii.eqb "/" "/") with true. cbv iota zeta.
  change (String "/" ("proc" +:+ String "/" (d +:+ String "/" "ns/mnt")))
    with ("/proc" +:+ String "/" (d +:+ String "/" "ns/mnt")).
  rewrite !components_app_slash, (components_name d EmptyString Hs).
  change (components "/proc" EmptyString) with [EmptyString; "proc"].
  change (components "ns/mnt" EmptyString) with ["ns"; "mnt"].
  change (EmptyString +:+ d) with d.
  simpl fold_left. unfold clean_step at 3. rewrite He, H1, H2.
  reflexivity.
Qed.

End clean_facts.

Lemma app_inv_tail (a b t : string) : a +:+ t = b +:+ t -> a = b.
Proof.
  intros E.
  assert (L : String.length a = String.length b).
  { apply (f_equal String.length) in E. rewrite !length_app in E. lia. }
  revert b E L. induction a as [|c a IH]; intros [|c' b] E L; simpl in L;
    try discriminate; [reflexivity |].
  simpl in E. injection E as -> E. f_equal. apply IH; [exact E | lia].
Qed.

(** X6.  The file [GetCgroupPaths] opens for a pid is /proc, the
    decimal text of the pid and cgroup, joined by slashes: the cleaning
    of [filepath.Join] changes nothing in it, and two different pids
    never share the file. *)
Theorem proc_cgroup_path (pid : Z) :
  filepath_lexical.Join ["/proc"; Sprintf_d pid; "cgroup"] = proc_cgroup pid
  /\ proc_cgroup pid = "/proc/" +:+ Sprintf_d pid +:+ "/cgroup"
  /\ (forall pid', proc_cgroup pid = proc_cgroup pid' -> pid = pid').
Proof.
  destruct (Sprintf_d_name pid) as (Hs & He & H1 & H2).
  split; [| split].
  - rewrite (Join_proc_cgroup _ Hs He H1 H2). reflexivity.
  - reflexivity.
  - intros pid' E. apply Sprintf_d_inj.
    change (proc_cgroup pid) with ("/proc/" +:+ Sprintf_d pid +:+ "/cgroup") in E.
    change (proc_cgroup pid') with ("/proc/" +:+ Sprintf_d pid' +:+ "/cgroup") in E.
    simpl in E. injection E as E.
    now apply (app_inv_tail _ _ "/cgroup").
Qed.

(** ** Mount namespace *)

(** X7.  [GetMntNs] looks at /proc/<pid>/ns/mnt and at nothing else:
    the error of a failed [Stat] is returned as it is, with 0; metadata
    of another type than [syscall.Stat_t] gives its own error; otherwise
    the inode number is returned with a nil error, whatever it is.  Two
    different pids are looked up under different paths. *)
Theorem GetMntNs_result (h : StatHost) (pid : Z) :
  (forall e b,
     os_Stat h ("/proc/" +:+ Sprintf_d pid +:+ "/ns/mnt") = Stat_fail e b ->
     GetMntNs h pid = (0%Z, Some e))
  /\ (forall fi,
        os_Stat h ("/proc/" +:+ Sprintf_d pid +:+ "/ns/mnt") = Stat_ok fi ->
        Sys fi = None ->
        GetMntNs h pid = (0%Z, Some (fmt_Errorf "Not a syscall.Stat_t" [])))
  /\ (forall fi st,
        os_Stat h ("/proc/" +:+ Sprintf_d pid +:+ "/ns/mnt") = Stat_ok fi ->
        Sys fi = Some st ->
        GetMntNs h pid = (Ino st, None))
  /\ (forall pid',
        "/proc/" +:+ Sprintf_d pid +:+ "/ns/mnt"
        = "/proc/" +:+ Sprintf_d pid' +:+ "/ns/mnt" -> pid = pid').
Proof.
  destruct (Sprintf_d_name pid) as (Hs & He & H1 & H2).
  unfold GetMntNs. rewrite (Join_proc_ns_mnt _ Hs He H1 H2).
  repeat split.
  - intros e b ->. reflexivity.
  - intros fi -> ->. reflexivity.
  - intros fi st -> ->. reflexivity.
  - intros pid' E. apply Sprintf_d_inj. simpl in E. injection E as E.
    now apply (app_inv_tail _ _ "/ns/mnt").
Qed.

Lemma GetMntNs_result_witness :
  GetMntNs (stat_host ["/proc/7/ns/mnt"] 0) 7 = (0%Z, None).
Proof.
  destruct (GetMntNs_result (stat_host ["/proc/7/ns/mnt"] 0) 7)
    as (_ & _ & H & _).
  apply (H {| Sys := Some {| Ino := 0 |} |} {| Ino := 0 |}); reflexivity.
Defined.

(** ** Cgroup mount point *)

(** X8.  [CgroupPathV2AddMountpoint] returns the path under the unified
    mount point unless [Stat] reports it missing, then the path under
    the cgroup mount point unless that one is missing too, and only
    then an error, with the empty path; a [Stat] that fails for another
    reason than a missing file counts as a file found. *)
Theorem CgroupPathV2AddMountpoint_result
  (h : StatHost) (path p : string) (err : option error) :
  CgroupPathV2AddMountpoint h path = (p, err) ->
  (err = None
   /\ p = filepath_lexical.Join ["/sys/fs/cgroup/unified"; path]
   /\ forall e, os_Stat h p <> Stat_fail e true)
  \/ (err = None
      /\ p = filepath_lexical.Join ["/sys/fs/cgroup"; path]
      /\ (exists e, os_Stat h (filepath_lexical.Join
                                 ["/sys/fs/cgroup/unified"; path])
                    = Stat_fail e true)
      /\ forall e, os_Stat h p <> Stat_fail e true)
  \/ (p = EmptyString
      /\ (exists e, os_Stat h (filepath_lexical.Join
                                 ["/sys/fs/cgroup/unified"; path])
                    = Stat_fail e true)
      /\ exists e,
           os_Stat h (filepath_lexical.Join ["/sys/fs/cgroup"; path])
           = Stat_fail e true
           /\ err = Some (fmt_Errorf "cannot access cgroup %q: %v"
                                     [ArgString path; ArgError e])).
Proof.
  unfold CgroupPathV2AddMountpoint.
  destruct (os_Stat h (filepath_lexical.Join ["/sys/fs/cgroup/unified"; path]))
    as [fi | e [|]] eqn:Hu;
    [| destruct (os_Stat h (filepath_lexical.Join ["/sys/fs/cgroup"; path]))
         as [fi | e' [|]] eqn:Hf |];
    intros E; pose proof (f_equal fst E) as Ep; pose proof (f_equal snd E) as Ee;
    cbn [fst snd] in Ep, Ee; subst p err; clear E.
  - left. rewrite Hu. repeat split; discriminate.
  - right. left. rewrite Hf. repeat split; eauto; discriminate.
  - right. right. repeat split; eauto.
  - right. left. rewrite Hf. repeat split; eauto; discriminate.
  - left. rewrite Hu. repeat split; discriminate.
Qed.

Lemma CgroupPathV2AddMountpoint_result_witness :
  (@None error = None
   /\ "/sys/fs/cgroup/unified/kubepods"
      = filepath_lexical.Join ["/sys/fs/cgroup/unified"; "/kubepods"]
   /\ forall e,
        os_Stat stat_denied_host "/sys/fs/cgroup/unified/kubepods"
        <> Stat_fail e true)
  \/ (@None error = None
      /\ "/sys/fs/cgroup/unified/kubepods"
         = filepath_lexical.Join ["/sys/fs/cgroup"; "/kubepods"]
      /\ (exists e, os_Stat stat_denied_host
                      (filepath_lexical.Join
                         ["/sys/fs/cgroup/unified"; "/kubepods"])
                    = Stat_fail e true)
      /\ forall e,
           os_Stat stat_denied_host "/sys/fs/cgroup/unified/kubepods"
           <> Stat_fail e true)
  \/ ("/sys/fs/cgroup/unified/kubepods" = EmptyString
      /\ (exists e, os_Stat stat_denied_host
                      (filepath_lexical.Join
                         ["/sys/fs/cgroup/unified"; "/kubepods"])
                    = Stat_fail e true)
      /\ exists e,
           os_Stat stat_denied_host
             (filepath_lexical.Join ["/sys/fs/cgroup"; "/kubepods"])
           = Stat_fail e true
           /\ @None error
              = Some (fmt_Errorf "cannot access cgroup %q: %v"
                                 [ArgString "/kubepods"; ArgError e])).
Proof.
  apply (CgroupPathV2AddMountpoint_result stat_denied_host "/kubepods"
           "/sys/fs/cgroup/unified/kubepods" None).
  reflexivity.
Defined.

Section mount_point_facts.

Import filepath_lexical.

Lemma fold_clean_grow (rooted : bool) (comps out : list string) :
  forallb (fun elem => negb (String.eqb elem "..")) comps = true ->
  fold_left (clean_step rooted) comps out
  = fold_left (clean_step rooted) comps [] ++ out.
Proof.
  revert out. induction comps as [|elem comps IH]; intros out; simpl.
  - reflexivity.
  - intros H. apply andb_true_iff in H as [He H].
    apply negb_true_iff in He. unfold clean_step at 2 4. rewrite He.
    destruct (String.eqb elem EmptyString || String.eqb elem ".").
    + now apply IH.
    + rewrite (IH (elem :: out) H), (IH [elem] H).
      rewrite <- List.app_assoc. reflexivity.
Qed.

Lemma fold_clean_names (rooted : bool) (comps out : list string) :
  forallb (fun elem =>
             negb (String.eqb elem EmptyString || String.eqb elem "."
                   || String.eqb elem "..")) comps = true ->
  fold_left (clean_step rooted) comps out = rev comps ++ out.
Proof.
  revert out. induction comps as [|elem comps IH]; intros out; simpl.
  - reflexivity.
  - intros H. apply andb_true_iff in H as [He H].
    apply negb_true_iff in He. apply orb_false_iff in He as [He H2].
    unfold clean_step at 2. rewrite He, H2.
    rewrite (IH _ H), <- List.app_assoc. reflexivity.
Qed.

Lemma slash_join_cons (e : string) (l : list string) :
  slash_join (e :: l)
  = e +:+ match l with [] => EmptyString | _ => "/" +:+ slash_join l end.
Proof. destruct l; simpl; [now rewrite app_nil_r | reflexivity]. Qed.

Lemma slash_join_app (l1 l2 : list string) :
  l1 <> [] ->
  slash_join (l1 ++ l2)
  = slash_join l1
    +:+ match l2 with [] => EmptyString | _ => "/" +:+ slash_join l2 end.
Proof.
  induction l1 as [|e l1 IH]; [easy |]. intros _.
  destruct l1 as [|e' l1].
  - change ([e] ++ l2) with (e :: l2). apply slash_join_cons.
  - change ((e :: e' :: l1) ++ l2) with (e :: (e' :: l1) ++ l2).
    rewrite slash_join_cons. change ((e' :: l1) ++ l2) with (e' :: l1 ++ l2).
    cbv iota. change (e' :: l1 ++ l2) with ((e' :: l1) ++ l2).
    rewrite IH by discriminate.
    rewrite (slash_join_cons e (e' :: l1)). cbv iota.
    now rewrite !app_assoc.
Qed.

Lemma components_nonempty (s cur : string) : components s cur <> [].
Proof.
  revert cur. induction s as [|c s IH]; intros cur; simpl; [discriminate |].
  destruct (Ascii.eqb c "/"); [discriminate | apply IH].
Qed.

(** Joining the elements of a path gives the path back. *)
Lemma slash_join_components (s cur : string) :
  slash_join (components s cur) = cur +:+ s.
Proof.
  revert cur. induction s as [|c s IH]; intros cur; simpl.
  - now rewrite app_nil_r.
  - destruct (Ascii.eqb_spec c "/") as [-> | _].
    + rewrite slash_join_cons, IH.
      destruct (components s EmptyString) eqn:E;
        [now destruct (components_nonempty s EmptyString) | reflexivity].
    + rewrite IH, app_assoc. reflexivity.
Qed.

(** The cleaned path behind a rooted directory [base], from the
    elements [base] leaves. *)
Lemma Clean_behind (base path : string) :
  strings.HasPrefix base "/" = true ->
  Clean (base +:+ String "/" path)
  = "/" +:+ slash_join
              (rev (fold_left (clean_step true) (components path EmptyString)
                      (fold_left (clean_step true)
                                 (components base EmptyString) []))).
Proof.
  intros Hb. apply HasPrefix_true in Hb as [base' ->].
  change ("/" +:+ base') with (String "/" base'). generalize base' as base.
  clear base'. intros base.
  unfold Clean.
  change (String "/" base +:+ String "/" path)
    with (String "/" (base +:+ String "/" path)).
  cbv iota. change (Ascii.eqb "/" "/") with true. cbv iota zeta.
  change (String "/" (base +:+ String "/" path))
    with (String "/" base +:+ String "/" path).
  now rewrite components_app_slash, fold_left_app.
Qed.

Lemma Join_behind (base path : string) :
  strings.HasPrefix base "/" = true ->
  Join [base; path] = Clean (base +:+ String "/" path).
Proof.
  intros Hb. destruct base as [|c base]; [discriminate |]. reflexivity.
Qed.

(** Without a double dot the cleaned path stays behind the directory. *)
Lemma Join_no_dotdot (base path : string) (kept : list string) :
  strings.HasPrefix base "/" = true ->
  fold_left (clean_step true) (components base EmptyString) [] = kept ->
  kept <> [] ->
  no_dotdot path = true ->
  Join [base; path]
  = ("/" +:+ slash_join (rev kept))
    +:+ match rev (fold_left (clean_step true)
                     (components path EmptyString) []) with
        | [] => EmptyString
        | l => "/" +:+ slash_join l
        end.
Proof.
  intros Hb Hk Hne Hd. rewrite (Join_behind base path Hb).
  rewrite (Clean_behind base path Hb), Hk.
  rewrite (fold_clean_grow true _ kept Hd), rev_app_distr.
  rewrite slash_join_app.
  - destruct (rev (fold_left _ _ [])); now rewrite ?app_assoc.
  - intros E. apply Hne. apply (f_equal (@rev string)) in E.
    now rewrite rev_involutive in E.
Qed.

Lemma Join_canonical (base rest : string) (kept : list string) :
  strings.HasPrefix base "/" = true ->
  fold_left (clean_step true) (components base EmptyString) [] = kept ->
  kept <> [] ->
  clean_elements rest = true ->
  Join [base; String "/" rest]
  = ("/" +:+ slash_join (rev kept)) +:+ String "/" rest.
Proof.
  intros Hb Hk Hne Hc. rewrite (Join_behind base _ Hb).
  rewrite (Clean_behind base _ Hb), Hk.
  change (components (String "/" rest) EmptyString)
    with (EmptyString :: components rest EmptyString).
  change (fold_left (clean_step true)
            (EmptyString :: components rest EmptyString) kept)
    with (fold_left (clean_step true) (components rest EmptyString) kept).
  rewrite (fold_clean_names true _ kept Hc), rev_app_distr, rev_involutive.
  rewrite slash_join_app.
  - rewrite slash_join_components.
    destruct (components rest EmptyString) eqn:E;
      [now destruct (components_nonempty rest EmptyString) |].
    now rewrite ?app_assoc.
  - intros E. apply Hne. apply (f_equal (@rev string)) in E.
    now rewrite rev_involutive in E.
Qed.

End mount_point_facts.

Lemma CgroupPathV2AddMountpoint_found (h : StatHost) (path p : string) :
  CgroupPathV2AddMountpoint h path = (p, None) ->
  p = filepath_lexical.Join ["/sys/fs/cgroup/unified"; path]
  \/ p = filepath_lexical.Join ["/sys/fs/cgroup"; path].
Proof.
  unfold CgroupPathV2AddMountpoint.
  destruct (os_Stat h (filepath_lexical.Join ["/sys/fs/cgroup/unified"; path]))
    as [fi | e [|]];
    [| destruct (os_Stat h (filepath_lexical.Join ["/sys/fs/cgroup"; path]))
         as [fi | e' [|]] |];
    intros E; pose proof (f_equal fst E) as Ep; pose proof (f_equal snd E) as Ee;
    cbn [fst snd] in Ep, Ee; clear E.
  - left. symmetry. exact Ep.
  - right. symmetry. exact Ep.
  - discriminate Ee.
  - right. symmetry. exact Ep.
  - left. symmetry. exact Ep.
Qed.

(** X9.  For a path without a double dot among its elements, the two
    candidates of [CgroupPathV2AddMountpoint] are the two mount points
    followed by one and the same cleaned path, and a path returned with
    a nil error lies under /sys/fs/cgroup. *)
Theorem CgroupPathV2AddMountpoint_stays_under (path : string) :
  no_dotdot path = true ->
  (exists suffix,
     filepath_lexical.Join ["/sys/fs/cgroup/unified"; path]
     = "/sys/fs/cgroup/unified" +:+ suffix
     /\ filepath_lexical.Join ["/sys/fs/cgroup"; path]
        = "/sys/fs/cgroup" +:+ suffix)
  /\ (forall h p,
        CgroupPathV2AddMountpoint h path = (p, None) ->
        strings.HasPrefix p "/sys/fs/cgroup" = true).
Proof.
  intros Hd.
  pose proof (Join_no_dotdot "/sys/fs/cgroup/unified" path
                ["unified"; "cgroup"; "fs"; "sys"] eq_refl eq_refl
                ltac:(discriminate) Hd) as Hu.
  pose proof (Join_no_dotdot "/sys/fs/cgroup" path
                ["cgroup"; "fs"; "sys"] eq_refl eq_refl
                ltac:(discriminate) Hd) as Hf.
  change ("/" +:+ filepath_lexical.slash_join
                    (rev ["unified"; "cgroup"; "fs"; "sys"]))
    with "/sys/fs/cgroup/unified" in Hu.
  change ("/" +:+ filepath_lexical.slash_join (rev ["cgroup"; "fs"; "sys"]))
    with "/sys/fs/cgroup" in Hf.
  split.
  - eexists. split; [exact Hu | exact Hf].
  - intros h p Hp.
    destruct (CgroupPathV2AddMountpoint_found h path p Hp) as [-> | ->].
    + rewrite Hu.
      change "/sys/fs/cgroup/unified" with ("/sys/fs/cgroup" +:+ "/unified").
      rewrite app_assoc. apply HasPrefix_app.
    + rewrite Hf. apply HasPrefix_app.
Qed.

Lemma CgroupPathV2AddMountpoint_stays_under_witness :
  strings.HasPrefix "/sys/fs/cgroup/kubepods/pod1" "/sys/fs/cgroup" = true.
Proof.
  destruct (CgroupPathV2AddMountpoint_stays_under "//kubepods/./pod1/"
              eq_refl) as [_ H].
  apply (H (stat_host ["/sys/fs/cgroup/kubepods/pod1"] 5)). reflexivity.
Defined.

(** X10.  For a cgroup path in the form the kernel gives it (a slash
    followed by names separated by single slashes), the path returned
    with a nil error is a mount point followed by the cgroup path
    unchanged; for the empty path, which stands for the root cgroup, it
    is a mount point itself. *)
Theorem CgroupPathV2AddMountpoint_canonical (h : StatHost) (rest p : string) :
  clean_elements rest = true ->
  (CgroupPathV2AddMountpoint h (String "/" rest) = (p, None) ->
   p = "/sys/fs/cgroup/unified" +:+ String "/" rest
   \/ p = "/sys/fs/cgroup" +:+ String "/" rest)
  /\ (CgroupPathV2AddMountpoint h EmptyString = (p, None) ->
      p = "/sys/fs/cgroup/unified" \/ p = "/sys/fs/cgroup").
Proof.
  intros Hc. split; intros Hp.
  - destruct (CgroupPathV2AddMountpoint_found h _ p Hp) as [-> | ->];
      [left | right].
    + exact (Join_canonical "/sys/fs/cgroup/unified" rest
               ["unified"; "cgroup"; "fs"; "sys"] eq_refl eq_refl
               ltac:(discriminate) Hc).
    + exact (Join_canonical "/sys/fs/cgroup" rest
               ["cgroup"; "fs"; "sys"] eq_refl eq_refl
               ltac:(discriminate) Hc).
  - destruct (CgroupPathV2AddMountpoint_found h _ p Hp) as [-> | ->];
      [left | right]; reflexivity.
Qed.

Lemma CgroupPathV2AddMountpoint_canonical_witness :
  "/sys/fs/cgroup/kubepods/pod1" = "/sys/fs/cgroup/unified" +:+ "/kubepods/pod1"
  \/ "/sys/fs/cgroup/kubepods/pod1" = "/sys/fs/cgroup" +:+ "/kubepods/pod1".
Proof.
  destruct (CgroupPathV2AddMountpoint_canonical
              (stat_host ["/sys/fs/cgroup/kubepods/pod1"] 5)
              "kubepods/pod1" "/sys/fs/cgroup/kubepods/pod1" eq_refl)
    as [H _].
  apply H. reflexivity.
Defined.

(** A double dot in the path leads out of the mount points: the
    candidate is cleaned, not confined. *)
Example CgroupPathV2AddMountpoint_dotdot :
  no_dotdot "../../../etc" = false
  /\ CgroupPathV2AddMountpoint (stat_host ["/sys/etc"] 5) "../../../etc"
     = ("/sys/etc", None).
Proof. split; vm_compute; reflexivity. Qed.

(** ** Container id to pid, further *)

(** The three prefixes exclude each other. *)
Lemma runtime_prefixes (rest : string) :
  strings.HasPrefix ("cri-o://" +:+ rest) "docker://" = false
  /\ strings.HasPrefix ("containerd://" +:+ rest) "docker://" = false
  /\ strings.HasPrefix ("containerd://" +:+ rest) "cri-o://" = false.
Proof. repeat split; reflexivity. Qed.

(** X11.  Whenever [PidFromContainerId] returns an error, the pid it
    returns with it is -1, for every container id and every host. *)
Theorem PidFromContainerId_error_pid
  (h : Host) (containerID : string) (tr tr' : list event)
  (pid : Z) (err : error) :
  PidFromContainerId h containerID tr = ((pid, Some err), tr') ->
  pid = (-1)%Z.
Proof.
  unfold PidFromContainerId, getContainerStatus, getConnection, call,
    mbind, M_bind, mret, M_ret.
  repeat match goal with
         | |- context [if ?c then _ else _] => destruct c
         | |- context [match ?x with _ => _ end] => destruct x
         end;
    intros E; pose proof (f_equal (fun r => fst (fst r)) E) as Ep;
    pose proof (f_equal (fun r => snd (fst r)) E) as Ee;
    cbn [fst snd] in Ep, Ee; congruence.
Qed.

Lemma PidFromContainerId_error_pid_witness : (-1)%Z = (-1)%Z.
Proof.
  apply (PidFromContainerId_error_pid bare_host "cri-o://abc" []
           [GrpcDial CRIO_DEFAULT_SOCKET_PATH] (-1)
           (host_error "connection refused")).
  reflexivity.
Defined.

(** X12.  [PidFromContainerId] calls the runtime of the prefix and no
    other, and appends its calls to the trace: for a docker id one run
    of the docker CLI on the id without its prefix; for a CRI-O or a
    containerd id one dial of the socket of that runtime, followed,
    only when the dial succeeded, by one verbose status request for the
    id without its prefix. *)
Theorem PidFromContainerId_calls (h : Host) (rest : string) (tr : list event) :
  snd (PidFromContainerId h ("docker://" +:+ rest) tr)
  = tr ++ [ExecOutput "chroot" ["/host"; "docker"; "inspect"; rest]]
  /\ snd (PidFromContainerId h ("cri-o://" +:+ rest) tr)
     = (tr ++ [GrpcDial CRIO_DEFAULT_SOCKET_PATH])
       ++ match grpc_Dial h CRIO_DEFAULT_SOCKET_PATH with
          | Some _ => []
          | None => [CriContainerStatus CRIO_DEFAULT_SOCKET_PATH
                       {| ContainerId := rest; Verbose := true |}]
          end
  /\ snd (PidFromContainerId h ("containerd://" +:+ rest) tr)
     = (tr ++ [GrpcDial CONTAINERD_DEFAULT_SOCKET_PATH])
       ++ match grpc_Dial h CONTAINERD_DEFAULT_SOCKET_PATH with
          | Some _ => []
          | None => [CriContainerStatus CONTAINERD_DEFAULT_SOCKET_PATH
                       {| ContainerId := rest; Verbose := true |}]
          end.
Proof.
  destruct (runtime_prefixes rest) as (P1 & P2 & P3).
  unfold PidFromContainerId. rewrite P1, P2, P3, !HasPrefix_app, !TrimPrefix_app.
  unfold getContainerStatus, getConnection, call, mbind, M_bind, mret, M_ret.
  repeat split.
  - repeat match goal with
           | |- context [if ?c then _ else _] => destruct c
           | |- context [match ?x with _ => _ end] => destruct x
           end; reflexivity.
  - destruct (grpc_Dial h CRIO_DEFAULT_SOCKET_PATH);
      [now rewrite List.app_nil_r |].
    repeat match goal with
           | |- context [match ?x with _ => _ end] => destruct x
           end; reflexivity.
  - destruct (grpc_Dial h CONTAINERD_DEFAULT_SOCKET_PATH);
      [now rewrite List.app_nil_r |].
    repeat match goal with
           | |- context [if ?c then _ else _] => destruct c
           | |- context [match ?x with _ => _ end] => destruct x
           end; reflexivity.
Qed.

(** X13.  The errors of the host are returned as they are, with the
    pid -1: the error of the docker CLI, the error of the dial (and no
    status request is made then), and the error of the status request,
    for CRI-O as for containerd. *)
Theorem PidFromContainerId_host_errors
  (h : Host) (rest : string) (tr : list event) (e : error) :
  (exec_Output h "chroot" ["/host"; "docker"; "inspect"; rest] = Err e ->
   PidFromContainerId h ("docker://" +:+ rest) tr
   = (((-1)%Z, Some e),
      tr ++ [ExecOutput "chroot" ["/host"; "docker"; "inspect"; rest]]))
  /\ (grpc_Dial h CRIO_DEFAULT_SOCKET_PATH = Some e ->
      PidFromContainerId h ("cri-o://" +:+ rest) tr
      = (((-1)%Z, Some e), tr ++ [GrpcDial CRIO_DEFAULT_SOCKET_PATH]))
  /\ (grpc_Dial h CRIO_DEFAULT_SOCKET_PATH = None ->
      cri_ContainerStatus h CRIO_DEFAULT_SOCKET_PATH
        {| ContainerId := rest; Verbose := true |} = Err e ->
      PidFromContainerId h ("cri-o://" +:+ rest) tr
      = (((-1)%Z, Some e),
         (tr ++ [GrpcDial CRIO_DEFAULT_SOCKET_PATH])
           ++ [CriContainerStatus CRIO_DEFAULT_SOCKET_PATH
                 {| ContainerId := rest; Verbose := true |}]))
  /\ (grpc_Dial h CONTAINERD_DEFAULT_SOCKET_PATH = Some e ->
      PidFromContainerId h ("containerd://" +:+ rest) tr
      = (((-1)%Z, Some e), tr ++ [GrpcDial CONTAINERD_DEFAULT_SOCKET_PATH]))
  /\ (grpc_Dial h CONTAINERD_DEFAULT_SOCKET_PATH = None ->
      cri_ContainerStatus h CONTAINERD_DEFAULT_SOCKET_PATH
        {| ContainerId := rest; Verbose := true |} = Err e ->
      PidFromContainerId h ("containerd://" +:+ rest) tr
      = (((-1)%Z, Some e),
         (tr ++ [GrpcDial CONTAINERD_DEFAULT_SOCKET_PATH])
           ++ [CriContainerStatus CONTAINERD_DEFAULT_SOCKET_PATH
                 {| ContainerId := rest; Verbose := true |}])).
Proof.
  destruct (runtime_prefixes rest) as (P1 & P2 & P3).
  unfold PidFromContainerId. rewrite P1, P2, P3, !HasPrefix_app, !TrimPrefix_app.
  unfold getContainerStatus, getConnection, call, mbind, M_bind, mret, M_ret.
  repeat split.
  - now intros ->.
  - now intros ->.
  - now intros -> ->.
  - now intros ->.
  - now intros -> ->.
Qed.

Lemma PidFromContainerId_host_errors_witness :
  PidFromContainerId bare_host "cri-o://abc" []
  = (((-1)%Z, Some (host_error "connection refused")),
     [GrpcDial CRIO_DEFAULT_SOCKET_PATH]).
Proof.
  destruct (PidFromContainerId_host_errors bare_host "abc" []
              (host_error "connection refused")) as (_ & H & _).
  apply H. reflexivity.
Defined.

(** X14.  A reply that cannot be used gives an error and the pid -1:
    docker output that does not decode, or that decodes to another
    number of elements than one; a CRI-O reply without the key pid, or
    with a pid that [Atoi] refuses (its partial value is dropped); a
    containerd reply without the key info, or with an info that does
    not decode. *)
Theorem PidFromContainerId_bad_reply
  (h : Host) (rest : string) (tr : list event) :
  (forall out l e,
     exec_Output h "chroot" ["/host"; "docker"; "inspect"; rest] = Ok out ->
     json.Unmarshal
       (json.store_slice {| State := {| Pid := 0 |} |} store_DockerInspect)
       out [] = (l, Some e) ->
     fst (PidFromContainerId h ("docker://" +:+ rest) tr) = ((-1)%Z, Some e))
  /\ (forall out l,
        exec_Output h "chroot" ["/host"; "docker"; "inspect"; rest] = Ok out ->
        json.Unmarshal
          (json.store_slice {| State := {| Pid := 0 |} |} store_DockerInspect)
          out [] = (l, None) ->
        length l <> 1%nat ->
        fst (PidFromContainerId h ("docker://" +:+ rest) tr)
        = ((-1)%Z, Some (fmt_Errorf "invalid output" [])))
  /\ (forall r,
        grpc_Dial h CRIO_DEFAULT_SOCKET_PATH = None ->
        cri_ContainerStatus h CRIO_DEFAULT_SOCKET_PATH
          {| ContainerId := rest; Verbose := true |} = Ok r ->
        Info r !! "pid" = None ->
        fst (PidFromContainerId h ("cri-o://" +:+ rest) tr)
        = ((-1)%Z,
           Some (fmt_Errorf
                   "container status reply from runtime doesn't contain 'pid'"
                   [])))
  /\ (forall r pidStr v e,
        grpc_Dial h CRIO_DEFAULT_SOCKET_PATH = None ->
        cri_ContainerStatus h CRIO_DEFAULT_SOCKET_PATH
          {| ContainerId := rest; Verbose := true |} = Ok r ->
        Info r !! "pid" = Some pidStr ->
        strconv.Atoi pidStr = (v, Some e) ->
        fst (PidFromContainerId h ("cri-o://" +:+ rest) tr) = ((-1)%Z, Some e))
  /\ (forall r,
        grpc_Dial h CONTAINERD_DEFAULT_SOCKET_PATH = None ->
        cri_ContainerStatus h CONTAINERD_DEFAULT_SOCKET_PATH
          {| ContainerId := rest; Verbose := true |} = Ok r ->
        Info r !! "info" = None ->
        fst (PidFromContainerId h ("containerd://" +:+ rest) tr)
        = ((-1)%Z,
           Some (fmt_Errorf
                   "container status reply from runtime doesn't contain 'info'"
                   [])))
  /\ (forall r info st e,
        grpc_Dial h CONTAINERD_DEFAULT_SOCKET_PATH = None ->
        cri_ContainerStatus h CONTAINERD_DEFAULT_SOCKET_PATH
          {| ContainerId := rest; Verbose := true |} = Ok r ->
        Info r !! "info" = Some info ->
        json.Unmarshal store_PidStruct info {| Pid := 0 |} = (st, Some e) ->
        fst (PidFromContainerId h ("containerd://" +:+ rest) tr)
        = ((-1)%Z, Some e)).
Proof.
  repeat split.
  - intros out l e Hout Hj.
    rewrite (PidFromContainerId_docker h rest tr out Hout), Hj. reflexivity.
  - intros out l Hout Hj Hl.
    rewrite (PidFromContainerId_docker h rest tr out Hout), Hj.
    destruct (Nat.eqb_spec (length l) 1); [contradiction | reflexivity].
  - intros r Hd Hs Hi.
    destruct (runtime_prefixes rest) as (P1 & _).
    unfold PidFromContainerId. rewrite P1, HasPrefix_app, TrimPrefix_app.
    unfold getContainerStatus, getConnection, call, mbind, M_bind, mret, M_ret.
    now rewrite Hd, Hs, Hi.
  - intros r pidStr v e Hd Hs Hi Ha.
    rewrite (PidFromContainerId_crio h rest tr r pidStr Hd Hs Hi), Ha.
    reflexivity.
  - intros r Hd Hs Hi.
    destruct (runtime_prefixes rest) as (_ & P2 & P3).
    unfold PidFromContainerId. rewrite P2, P3, HasPrefix_app, TrimPrefix_app.
    unfold getContainerStatus, getConnection, call, mbind, M_bind, mret, M_ret.
    now rewrite Hd, Hs, Hi.
  - intros r info st e Hd Hs Hi Hj.
    rewrite (PidFromContainerId_containerd h rest tr r info Hd Hs Hi), Hj.
    reflexivity.
Qed.

Lemma PidFromContainerId_bad_reply_witness :
  fst (PidFromContainerId (host_with_docker "[]") "docker://abc" [])
  = ((-1)%Z, Some (fmt_Errorf "invalid output" [])).
Proof.
  destruct (PidFromContainerId_bad_reply (host_with_docker "[]") "abc" [])
    as (_ & H & _).
  apply (H "[]" []); [reflexivity | vm_compute; reflexivity | discriminate].
Defined.

(** X15.  The CRI-O variant returns the pid the runtime reports: when
    the reply holds, under the key pid, the decimal text of a number
    that fits 64 bits, that number is returned with a nil error. *)
Theorem PidFromContainerId_crio_decimal
  (h : Host) (rest : string) (tr : list event)
  (r : ContainerStatusResponse) (pid : Z) :
  grpc_Dial h CRIO_DEFAULT_SOCKET_PATH = None ->
  cri_ContainerStatus h CRIO_DEFAULT_SOCKET_PATH
    {| ContainerId := rest; Verbose := true |} = Ok r ->
  Info r !! "pid" = Some (Sprintf_d pid) ->
  (- 2 ^ 63 <= pid < 2 ^ 63)%Z ->
  fst (PidFromContainerId h ("cri-o://" +:+ rest) tr) = (pid, None).
Proof.
  intros Hd Hs Hi Hr.
  rewrite (PidFromContainerId_crio h rest tr r _ Hd Hs Hi).
  rewrite (Atoi_Sprintf_d pid Hr). reflexivity.
Qed.

Lemma PidFromContainerId_crio_decimal_witness :
  fst (PidFromContainerId (host_with_status {[ "pid" := Sprintf_d 4242 ]})
         "cri-o://abc" [])
  = (4242%Z, None).
Proof.
  apply (PidFromContainerId_crio_decimal
           (host_with_status {[ "pid" := Sprintf_d 4242 ]}) "abc" []
           {| Info := {[ "pid" := Sprintf_d 4242 ]} |} 4242);
    [reflexivity | reflexivity | vm_compute; reflexivity | lia].
Defined.

(** ** The OCI state, further *)

(** X16.  [ParseOCIState] never returns a part of a state with an
    error: whenever the error is not nil, the id is empty and the pid
    is 0, whatever the first attempt has stored. *)
Theorem ParseOCIState_error_zero
  (stateBuf id : string) (pid : Z) (err : error) :
  ParseOCIState stateBuf = (id, pid, Some err) ->
  id = EmptyString /\ pid = 0%Z.
Proof.
  unfold ParseOCIState.
  destruct (json.Unmarshal ocispec.store_State stateBuf ocispec.zero)
    as [st [e1|]].
  - destruct (negb (length (regexp.FindStringSubmatch stateBuf) =? 2)%nat).
    + intros E. split.
      * exact (eq_sym (f_equal (fun r => fst (fst r)) E)).
      * exact (eq_sym (f_equal (fun r => snd (fst r)) E)).
    + destruct (json.Unmarshal ocispec.store_State _ st) as [st' [e2|]];
        intros E.
      * split.
        -- exact (eq_sym (f_equal (fun r => fst (fst r)) E)).
        -- exact (eq_sym (f_equal (fun r => snd (fst r)) E)).
      * pose proof (f_equal snd E) as Ee. discriminate Ee.
  - intros E. pose proof (f_equal snd E) as Ee. discriminate Ee.
Qed.

Lemma ParseOCIState_error_zero_witness :
  @eq string EmptyString EmptyString /\ 0%Z = 0%Z.
Proof.
  apply (ParseOCIState_error_zero
           ("{" +:+ member_num "pid" "7" +:+ "," +:+ member_num "id" "5" +:+ "}")
           EmptyString 0
           (fmt_Errorf
              ("cannot parse OCI state: matches=%+v" +:+ NL +:+ " %v" +:+ NL
               +:+ "%s" +:+ NL)
              [ArgStrings []; ArgError (json_UnmarshalTypeError "number");
               ArgString ("{" +:+ member_num "pid" "7" +:+ ","
                          +:+ member_num "id" "5" +:+ "}")])).
  vm_compute. reflexivity.
Defined.

(** X17.  When the second attempt fails too, the error returned carries
    the error of the second attempt and the payload; the error of the
    first attempt is not in it. *)
Theorem ParseOCIState_second_error
  (pre rest : string) (st0 st : ocispec.State) (err1 err2 : error) :
  json.Unmarshal ocispec.store_State (pre +:+ regexp.literal +:+ rest)
                 ocispec.zero = (st0, Some err1) ->
  occurs regexp.literal rest = false ->
  json.Unmarshal ocispec.store_State (pre +:+ "}") st0 = (st, Some err2) ->
  ParseOCIState (pre +:+ regexp.literal +:+ rest)
  = (EmptyString, 0%Z,
     Some (fmt_Errorf ("cannot parse OCI state: %v" +:+ NL +:+ "%s" +:+ NL)
                      [ArgError err2;
                       ArgString (pre +:+ regexp.literal +:+ rest)])).
Proof.
  intros H1 Hlast H2.
  rewrite (ParseOCIState_retry pre rest st0 err1 H1 Hlast), H2. reflexivity.
Qed.

Lemma ParseOCIState_second_error_witness :
  ParseOCIState
    (("{" +:+ member_str "pid" "x") +:+ regexp.literal +:+ "{")
  = (EmptyString, 0%Z,
     Some (fmt_Errorf ("cannot parse OCI state: %v" +:+ NL +:+ "%s" +:+ NL)
             [ArgError (json_UnmarshalTypeError "string");
              ArgString (("{" +:+ member_str "pid" "x") +:+ regexp.literal
                         +:+ "{")])).
Proof.
  apply (ParseOCIState_second_error ("{" +:+ member_str "pid" "x") "{"
           ocispec.zero ocispec.zero
           json_SyntaxError (json_UnmarshalTypeError "string"));
    vm_compute; reflexivity.
Defined.

(** ** The scanner on a plain state *)
Section scanner_facts.

Import json.

Lemma scan_bytes_app (s : scanner) (a b : string) :
  scan_bytes s (a +:+ b) = scan_bytes (scan_bytes s a) b.
Proof.
  revert s. induction a as [|c a IH]; intros s; simpl; [reflexivity |].
  apply IH.
Qed.

Lemma plain_byte_tests (c : ascii) :
  plain_byte c = true ->
  Ascii.eqb c dquote = false /\ Ascii.eqb c "\" = false
  /\ (utf8.code c <? 32)%Z = false /\ (utf8.code c <? 128)%Z = true.
Proof.
  unfold plain_byte. intros H.
  apply andb_true_iff in H as [H Hb]. apply andb_true_iff in H as [H Hq].
  apply andb_true_iff in H as [Hlo Hhi].
  apply negb_true_iff in Hb, Hq. apply Z.leb_le in Hlo.
  repeat split; auto. apply Z.ltb_ge. exact Hlo.
Qed.

(** Inside a string literal, plain bytes are taken as they are. *)
Lemma scan_plain_text (ps : list frame) (tp : option value) (raw x : string) :
  plain_text x = true ->
  scan_bytes {| step_ := stateInString raw; parseState := ps; top := tp |} x
  = {| step_ := stateInString (raw +:+ x); parseState := ps; top := tp |}.
Proof.
  revert raw. induction x as [|c x IH]; intros raw; simpl.
  - now rewrite app_nil_r.
  - intros H. apply andb_true_iff in H as [Hc Hx].
    destruct (plain_byte_tests c Hc) as (Hq & Hb & Hlo & _).
    unfold scan_step. cbn [step_]. rewrite Hq, Hb, Hlo.
    unfold goto, snoc. cbn [parseState top].
    rewrite (IH _ Hx), app_assoc. reflexivity.
Qed.

Lemma unquote_plain_text (out x : string) :
  plain_text x = true -> unquote_from UPlain None out x = out +:+ x.
Proof.
  revert out. induction x as [|c x IH]; intros out; simpl.
  - now rewrite app_nil_r.
  - intros H. apply andb_true_iff in H as [Hc Hx].
    destruct (plain_byte_tests c Hc) as (_ & Hb & _ & Hhi).
    unfold uplain. rewrite Hb, Hhi. cbn [flush].
    rewrite (IH _ Hx), app_assoc. reflexivity.
Qed.

Lemma scan_digits (ps : list frame) (tp : option value) (lit ds : string) :
  all_digits ds = true ->
  scan_bytes {| step_ := state1 lit; parseState := ps; top := tp |} ds
  = {| step_ := state1 (lit +:+ ds); parseState := ps; top := tp |}.
Proof.
  revert lit. induction ds as [|c ds IH]; intros lit; simpl.
  - now rewrite app_nil_r.
  - intros H. apply andb_true_iff in H as [Hc Hd].
    unfold scan_step. cbn [step_]. rewrite Hc.
    unfold goto, snoc. cbn [parseState top].
    rewrite (IH _ Hd), app_assoc. reflexivity.
Qed.

Lemma begin_digit19 (s : scanner) (c : ascii) :
  isDigit19 c = true ->
  stepBeginValue s c = goto s (state1 (String c EmptyString))
  /\ Ascii.eqb c "0" = false /\ Ascii.eqb c "-" = false.
Proof.
  destruct c as [[] [] [] [] [] [] [] []]; try discriminate;
    intros _; repeat split; reflexivity.
Qed.

(** A number without fraction and exponent is read to its end. *)
Lemma scan_natural (ps : list frame) (tp : option value) (sign lit : string) :
  json_natural lit = true ->
  (scan_bytes {| step_ := stateBeginValue; parseState := ps; top := tp |} lit
   = {| step_ := state0 lit; parseState := ps; top := tp |}
   \/ scan_bytes {| step_ := stateBeginValue; parseState := ps; top := tp |} lit
      = {| step_ := state1 lit; parseState := ps; top := tp |})
  /\ (scan_bytes {| step_ := stateNeg "-"; parseState := ps; top := tp |} lit
      = {| step_ := state0 ("-" +:+ lit); parseState := ps; top := tp |}
      \/ scan_bytes {| step_ := stateNeg "-"; parseState := ps; top := tp |} lit
         = {| step_ := state1 ("-" +:+ lit); parseState := ps; top := tp |}).
Proof.
  destruct lit as [|c lit]; [discriminate |]. unfold json_natural.
  destruct (Ascii.eqb_spec c "0") as [-> | Hc].
  - intros H. apply String.eqb_eq in H. subst lit. split; left; reflexivity.
  - intros H. apply andb_true_iff in H as [H19 Hd].
    destruct (begin_digit19
                {| step_ := stateBeginValue; parseState := ps; top := tp |}
                c H19) as (Hb & H0 & _).
    split; right.
    + change (scan_bytes _ (String c lit))
        with (scan_bytes
                (scan_step {| step_ := stateBeginValue; parseState := ps;
                              top := tp |} c) lit).
      unfold scan_step. cbn [step_]. rewrite Hb. unfold goto.
      cbn [parseState top]. exact (scan_digits ps tp _ lit Hd).
    + change (scan_bytes _ (String c lit))
        with (scan_bytes
                (scan_step {| step_ := stateNeg "-"; parseState := ps;
                              top := tp |} c) lit).
      unfold scan_step. cbn [step_]. rewrite H0, H19. unfold goto, snoc.
      cbn [parseState top]. exact (scan_digits ps tp _ lit Hd).
Qed.

Lemma scan_integer (ps : list frame) (tp : option value) (lit : string) :
  json_integer lit = true ->
  scan_bytes {| step_ := stateBeginValue; parseState := ps; top := tp |} lit
  = {| step_ := state0 lit; parseState := ps; top := tp |}
  \/ scan_bytes {| step_ := stateBeginValue; parseState := ps; top := tp |} lit
     = {| step_ := state1 lit; parseState := ps; top := tp |}.
Proof.
  destruct lit as [|c lit]; [discriminate |]. unfold json_integer.
  destruct (Ascii.eqb_spec c "-") as [-> | Hc].
  - intros H. exact (proj2 (scan_natural ps tp EmptyString lit H)).
  - intros H. exact (proj1 (scan_natural ps tp EmptyString _ H)).
Qed.

(** The state with a plain id and a whole number is well formed, and
    the value read holds the id and the literal of the number. *)
Lemma checkValid_state (id lit : string) :
  plain_text id = true ->
  json_integer lit = true ->
  checkValid (open_state id lit +:+ "}")
  = Some (Object [("id", Str id); ("pid", Number lit)]).
Proof.
  intros Hid Hlit.
  set (P1 := "{" +:+ quoted "id" +:+ ":" +:+ String dquote EmptyString).
  set (P2 := String dquote EmptyString +:+ "," +:+ quoted "pid" +:+ ":").
  assert (E : open_state id lit +:+ "}"
              = P1 +:+ id +:+ P2 +:+ lit +:+ "}").
  { subst P1 P2. unfold open_state, member_str, member_num, quoted.
    change (String dquote (id +:+ String dquote EmptyString))
      with (String dquote EmptyString +:+ id +:+ String dquote EmptyString).
    rewrite !app_assoc. reflexivity. }
  unfold checkValid. rewrite E.
  rewrite (scan_bytes_app _ P1), (scan_bytes_app _ id), (scan_bytes_app _ P2),
    (scan_bytes_app _ lit).
  change (scan_bytes {| step_ := stateBeginValue; parseState := []; top := None |}
            P1)
    with {| step_ := stateInString EmptyString;
            parseState := [parseObjectValue [] (Some "id")]; top := None |}.
  rewrite (scan_plain_text _ _ EmptyString id Hid).
  change (EmptyString +:+ id) with id.
  change (scan_bytes
            {| step_ := stateInString id;
               parseState := [parseObjectValue [] (Some "id")]; top := None |}
            P2)
    with {| step_ := stateBeginValue;
            parseState := [parseObjectValue [("id", Str (unquote id))]
                                            (Some "pid")];
            top := None |}.
  unfold unquote. rewrite (unquote_plain_text EmptyString id Hid).
  change (EmptyString +:+ id) with id.
  destruct (scan_integer
              [parseObjectValue [("id", Str id)] (Some "pid")] None lit Hlit)
    as [-> | ->]; reflexivity.
Qed.

End scanner_facts.

Lemma Unmarshal_state (id lit : string) (pid : Z) :
  plain_text id = true ->
  json_integer lit = true ->
  strconv.ParseInt lit = (pid, None) ->
  json.Unmarshal ocispec.store_State (open_state id lit +:+ "}") ocispec.zero
  = ({| ocispec.Version := EmptyString; ocispec.ID := id;
        ocispec.Status := EmptyString; ocispec.Pid := pid;
        ocispec.Bundle := EmptyString; ocispec.Annotations := None |}, None).
Proof.
  intros Hid Hlit Hpid. unfold json.Unmarshal.
  rewrite (checkValid_state id lit Hid Hlit).
  unfold ocispec.store_State, json.store_struct.
  cbn [fold_left fst snd].
  change (json.find_field ocispec.fields "id")
    with (nth_error ocispec.fields 1).
  change (json.find_field ocispec.fields "pid")
    with (nth_error ocispec.fields 3).
  cbn [nth_error ocispec.fields json.store_field json.store_string
       ocispec.zero ocispec.Version ocispec.ID ocispec.Status ocispec.Pid
       ocispec.Bundle ocispec.Annotations fst snd].
  unfold json.store_int. rewrite Hpid. reflexivity.
Qed.

(** X18.  Round trip: the state written with a plain id (ASCII without
    control bytes, double quote and backslash) and a whole number that
    fits 64 bits parses back to that id and that number, with a nil
    error. *)
Theorem ParseOCIState_round_trip (id lit : string) (pid : Z) :
  plain_text id = true ->
  json_integer lit = true ->
  strconv.ParseInt lit = (pid, None) ->
  ParseOCIState ("{" +:+ member_str "id" id +:+ "," +:+ member_num "pid" lit
                 +:+ "}")
  = (id, pid, None).
Proof.
  intros Hid Hlit Hpid.
  assert (E : "{" +:+ member_str "id" id +:+ "," +:+ member_num "pid" lit +:+ "}"
              = open_state id lit +:+ "}").
  { unfold open_state. now rewrite !app_assoc. }
  rewrite E.
  rewrite (ParseOCIState_strict _ _ (Unmarshal_state id lit pid Hid Hlit Hpid)).
  reflexivity.
Qed.

Lemma ParseOCIState_round_trip_witness :
  ParseOCIState ("{" +:+ member_str "id" "4f3a-container_01" +:+ ","
                 +:+ member_num "pid" "-40125" +:+ "}")
  = ("4f3a-container_01", (-40125)%Z, None).
Proof.
  apply (ParseOCIState_round_trip "4f3a-container_01" "-40125" (-40125));
    reflexivity.
Defined.

(** X19.  A plain state is recovered from behind any broken tail: when
    the payload is such a state left open, followed by the literal of
    the pattern and a rest without the literal, and is not well-formed
    JSON, [ParseOCIState] returns the id and the number of the state. *)
Theorem ParseOCIState_recovers_state (id lit rest : string) (pid : Z) :
  plain_text id = true ->
  json_integer lit = true ->
  strconv.ParseInt lit = (pid, None) ->
  occurs regexp.literal rest = false ->
  json.checkValid (open_state id lit +:+ regexp.literal +:+ rest) = None ->
  ParseOCIState (open_state id lit +:+ regexp.literal +:+ rest)
  = (id, pid, None).
Proof.
  intros Hid Hlit Hpid Hlast Hsyntax.
  rewrite (ParseOCIState_retry (open_state id lit) rest ocispec.zero
             json_SyntaxError
             (Unmarshal_syntax_error _ _ _ Hsyntax) Hlast).
  rewrite (Unmarshal_state id lit pid Hid Hlit Hpid). reflexivity.
Qed.

Lemma ParseOCIState_recovers_state_witness :
  ParseOCIState (open_state "abc" "123" +:+ regexp.literal +:+ "{,}")
  = ("abc", 123%Z, None).
Proof.
  apply (ParseOCIState_recovers_state "abc" "123" "{,}" 123);
    vm_compute; reflexivity.
Defined.
